(** * Greylitsearcher: result accumulation and batch upsert

    A shallow embedding of the two stateful parts of the tool:

    - the module-level search accumulation of [main.py] (lines 165-258),
      which pages through three query tiers per website, tags items with
      the tier's priority, de-duplicates tiers 2 and 3 against what was
      accumulated and truncates to 40 items;
    - [DirectAirtableIntegration.save_results] of
      [direct_airtable_integration.py] (lines 72-176), which walks the
      flattened work list, optionally looks up duplicates, creates records
      and keeps the four counters.

    The search service ([google_search]) and the Airtable table
    ([Table.all], [Table.create]) are opaque: they are functions over an
    abstract state, and every exchange with them is written to a log.
    The progress callback passed to [save_results] is a function over a
    state of its own; each call of it returns or raises. *)

From stdpp Require Import gmap strings list fin_maps sorting.


(** * Data shared by both parts *)

(** JSON values the code reads out of a result item: strings ([link],
    [title], [snippet]) and integers ([priority]). *)
Inductive value :=
  | VStr (s : string)
  | VInt (n : Z).

#[global] Instance value_eq_dec : EqDecision value.
Proof. solve_decision. Defined.

(** A result item is a Python [dict]. *)
Abbreviation item := (gmap string value).

(** Python truthiness: [not link] holds for the empty string and for 0. *)
Definition truthy (v : value) : bool :=
  match v with
  | VStr s => negb (String.eqb s "")
  | VInt n => negb (n =? 0)%Z
  end.

(** Truthiness of a [str] read from a text input. *)
Definition nonempty (s : string) : bool := negb (String.eqb s "").

(** [d.get(k, dflt)] *)
Definition dict_get (k : string) (dflt : value) (d : item) : value :=
  default dflt (d !! k).

(** The link values carried by a list of items, in order; an item without
    the key contributes none. *)
Definition link_values (l : list item) : list value :=
  omap (λ it : item, it !! "link") l.

(** * The search accumulation of [main.py] *)

Module Main.

(** The four text inputs of one "Search n" expander, named after the
    keyword arguments they are passed as. *)
Record Terms := {
  q : string;            (* and1 / and2 / and3 *)
  exactTerms : string;   (* exact1 / ... *)
  orTerms : string;      (* any1 / ... *)
  excludeTerms : string  (* none1 / ... *)
}.

(** [and2 or exact2 or any2 or none2] *)
Definition active (t : Terms) : bool :=
  nonempty (q t) || nonempty (exactTerms t)
  || nonempty (orTerms t) || nonempty (excludeTerms t).

(** The decoded JSON body [google_search] hands back.  Only the [items]
    key is read, through [.get('items', [])]; a body without results (or
    an error body that is not a rate-limit error) has no such key. *)
Record Response := { resp_items : option (list item) }.

(** [current_results.get('items', [])] *)
Definition get_items (r : Response) : list item := default [] (resp_items r).

(** One call of [google_search] together with what it returned; [ex_tier]
    records which of the three loops issued it. *)
Record Exchange := {
  ex_tier : nat;
  ex_page : nat;
  ex_site : string;
  ex_terms : Terms;
  ex_reply : option Response
}.

(** Raw items of the page an exchange returned. *)
Definition reply_items (e : Exchange) : list item :=
  from_option get_items [] (ex_reply e).

(** A reply with fewer than 10 raw items. *)
Definition short_page (e : Exchange) : Prop :=
  ∃ r, ex_reply e = Some r ∧ length (get_items r) < 10.

(** Exchanges of one tier. *)
Definition tier_log (k : nat) (lg : list Exchange) : list Exchange :=
  filter (λ e, ex_tier e = k) lg.

(** [for item in ...: item['priority'] = p] *)
Definition tag (p : Z) (its : list item) : list item :=
  (λ it : item, <["priority" := VInt p]> it) <$> its.

(** [[i['link'] for i in acc]]; [None] is the [KeyError] of an item
    without the key. *)
Definition links (acc : list item) : option (list value) :=
  mapM (λ it : item, it !! "link") acc.

(** [[item for item in its if item['link'] not in [i['link'] for i in acc]]]
    The accumulated list is not extended while the comprehension runs, so
    every item of the page is compared with the same [acc]. *)
Fixpoint new_items (acc its : list item) : option (list item) :=
  match its with
  | [] => Some []
  | it :: rest =>
      lk ← it !! "link";
      seen ← links acc;
      tl ← new_items acc rest;
      Some (if decide (lk ∈ seen) then tl else it :: tl)
  end.

(** The item has the key [link], so [item['link']] does not raise. *)
Definition has_link (it : item) : Prop := is_Some (it !! "link").

(** In the exchanges of one loop, a page with fewer than 10 raw items can
    only be the last one. *)
Definition short_last (new : list Exchange) : Prop :=
  ∀ i e, new !! i = Some e → short_page e → S i = length new.

(** "No request is sent for a tier whose four term fields are empty", read
    for all three tiers. *)
Definition no_request_without_terms (t1 t2 t3 : Terms)
    (lg : list Exchange) : Prop :=
  ∀ k t, (k, t) ∈ [(1, t1); (2, t2); (3, t3)] →
         active t = false → tier_log k lg = [].

(** What a later tier may add to [acc]: items tagged [k] whose link is
    carried by no item of [acc]. *)
Definition fresh_in (k : nat) (acc added : list item) : Prop :=
  Forall (λ y : item, y !! "priority" = Some (VInt (Z.of_nat k))
            ∧ ∃ lk, y !! "link" = Some lk ∧ lk ∉ link_values acc) added.

Section Accumulation.

(** State of the search service (quota, index, ...). *)
Context {W : Type}.

(** [google_search(page, site, q=, exactTerms=, orTerms=, excludeTerms=)]:
    [None] when every key is over its rate limit. *)
Variable google_search : nat → string → Terms → W → option Response * W.

(** What the accumulation of one website carries along:
    [st.session_state['results'][website]], the module-level flag
    [limitExceeded], the exchanges so far and the service state. *)
Record Acc := {
  results : list item;
  limitExceeded : bool;
  log : list Exchange;
  world : W
}.

(** [len(results) >= 40 or len(current_results.get('items', [])) < 10] *)
Definition stop_paging (res : list item) (r : Response) : bool :=
  (40 <=? length res) || (length (get_items r) <? 10).

(** Lines 186-198: the loop of tier 1.  Every item of a page is appended;
    nothing is compared with what is already there. *)
Fixpoint tier1_pages (website : string) (t : Terms) (pages : list nat)
    (a : Acc) : Acc :=
  match pages with
  | [] => a
  | page :: rest =>
      let '(reply, w) := google_search page website t (world a) in
      let lg := log a ++ [{| ex_tier := 1; ex_page := page;
                             ex_site := website; ex_terms := t;
                             ex_reply := reply |}] in
      match reply with
      | None =>
          {| results := results a; limitExceeded := true;
             log := lg; world := w |}
      | Some current_results =>
          let res := results a ++ tag 1 (get_items current_results) in
          let a' := {| results := res; limitExceeded := limitExceeded a;
                       log := lg; world := w |} in
          if stop_paging res current_results then a'
          else tier1_pages website t rest a'
      end
  end.

(** Lines 216-229 and 245-257: the loop of tier 2 and of tier 3, which
    differ in the priority and in the number of pages only.  [None] is
    the [KeyError] raised by [item['link']]. *)
Fixpoint dedup_pages (k : nat) (website : string) (t : Terms)
    (pages : list nat) (a : Acc) : option Acc :=
  match pages with
  | [] => Some a
  | page :: rest =>
      let '(reply, w) := google_search page website t (world a) in
      let lg := log a ++ [{| ex_tier := k; ex_page := page;
                             ex_site := website; ex_terms := t;
                             ex_reply := reply |}] in
      match reply with
      | None =>
          Some {| results := results a; limitExceeded := true;
                  log := lg; world := w |}
      | Some current_results =>
          new ← new_items (results a)
                  (tag (Z.of_nat k) (get_items current_results));
          let res := results a ++ new in
          let a' := {| results := res; limitExceeded := limitExceeded a;
                       log := lg; world := w |} in
          if stop_paging res current_results then Some a'
          else dedup_pages k website t rest a'
      end
  end.

(** [len(results) < 40 and (and_k or exact_k or any_k or none_k)] *)
Definition tier_guard (a : Acc) (t : Terms) : bool :=
  (length (results a) <? 40) && active t.

(** Lines 203-229 (tier 2, 8 pages) and 231-257 (tier 3, 10 pages): the
    guarded loop of a later tier. *)
Definition search_tier (k : nat) (website : string) (t : Terms)
    (budget : nat) (a : Acc) : option Acc :=
  if tier_guard a t then dedup_pages k website t (seq 0 budget) a
  else Some a.

(** Lines 173-258: the body of [for website in websites] for one
    non-empty website, from the service state [w] and the current value
    [lim] of [limitExceeded].  Tier 1 is paged without a guard; the
    result list is cut to 40 at the end.  (The query label kept in
    [st.session_state['search_queries']] is not modelled.) *)
Definition search_website (t1 t2 t3 : Terms) (website : string)
    (lim : bool) (w : W) : option Acc :=
  let a1 := tier1_pages website t1 (seq 0 4)
              {| results := []; limitExceeded := lim;
                 log := []; world := w |} in
  a2 ← search_tier 2 website t2 8 a1;
  a3 ← search_tier 3 website t3 10 a2;
  Some {| results := take 40 (results a3);
          limitExceeded := limitExceeded a3;
          log := log a3; world := world a3 |}.

(** What is left when the script has run: [st.session_state['results']],
    [limitExceeded] and the service state. *)
Record Session := {
  s_results : gmap string (list item);
  s_limit : bool;
  s_world : W
}.

(** Lines 171-258: [for website in websites: if website: ...] *)
Fixpoint search_websites (t1 t2 t3 : Terms) (websites : list string)
    (s : Session) : option Session :=
  match websites with
  | [] => Some s
  | website :: rest =>
      if nonempty website then
        a ← search_website t1 t2 t3 website (s_limit s) (s_world s);
        search_websites t1 t2 t3 rest
          {| s_results := <[website := results a]> (s_results s);
             s_limit := limitExceeded a;
             s_world := world a |}
      else search_websites t1 t2 t3 rest s
  end.

(** Lines 165-258: one press of the Search button; [websites] is the
    text area split at newlines. *)
Definition search_button (t1 t2 t3 : Terms) (websites : list string)
    (w : W) : option Session :=
  search_websites t1 t2 t3 websites
    {| s_results := ∅; s_limit := false; s_world := w |}.

End Accumulation.

(** ** The calls behind a log *)

Section Served.

Context {W : Type}.
Variable google_search : nat → string → Terms → W → option Response * W.

(** [served lg w w']: calling the service once per exchange of [lg], in
    order and each time on the state the call before left, gives the
    replies recorded in [lg] and takes the service from [w] to [w']. *)
Inductive served : list Exchange → W → W → Prop :=
  | served_nil w : served [] w w
  | served_snoc lg e w w1 w2 :
      served lg w w1 →
      google_search (ex_page e) (ex_site e) (ex_terms e) w1
        = (ex_reply e, w2) →
      served (lg ++ [e]) w w2.

End Served.

(** An exchange of tier [k] for [website] with the terms [t]. *)
Definition asks (k : nat) (website : string) (t : Terms)
    (e : Exchange) : Prop :=
  ex_tier e = k ∧ ex_site e = website ∧ ex_terms e = t.

(** In the exchanges of one loop, a call that came back [None] can only
    be the last one. *)
Definition none_last (new : list Exchange) : Prop :=
  ∀ i e, new !! i = Some e → ex_reply e = None → S i = length new.

(** The priority tag of an item is [k]. *)
Definition tagged (k : Z) (it : item) : Prop :=
  it !! "priority" = Some (VInt k).

(** The priority tag of an item is an integer below [k]. *)
Definition priority_below (k : Z) (it : item) : bool :=
  match it !! "priority" with
  | Some (VInt j) => (j <? k)%Z
  | _ => false
  end.

(** The items of a list tagged by a tier before tier [k]. *)
Definition below_tier (k : Z) (l : list item) : list item :=
  filter (λ it : item, priority_below k it = true) l.

(** ** [google_search] (lines 62-98) *)

(** The query string of one request to the Custom Search API: the keys of
    the [params] dict once [kwargs] are merged in. *)
Record Params := {
  p_q : string;
  p_key : string;
  p_cx : string;
  p_num : nat;
  p_start : nat;
  p_siteSearch : string;
  p_exactTerms : string;
  p_orTerms : string;
  p_excludeTerms : string
}.

(** The decoded JSON of an answer.  [body_error] is [Some reason] when the
    body has a non-empty [error] whose first entry of [errors] carries
    that [reason], as the API sends it; bodies with an [error] of another
    shape are not modelled. *)
Record Body := {
  body_error : option string;
  body_items : option (list item)
}.

(** [needle in hay] on [str]. *)
Fixpoint contains (needle hay : string) : bool :=
  String.prefix needle hay ||
  match hay with
  | EmptyString => false
  | String _ rest => contains needle rest
  end.

(** The negation of line 94,
    [not response.get('error') or
     'rateLimitExceeded' not in response['error']['errors'][0]['reason']]. *)
Definition rate_limited (b : Body) : bool :=
  match body_error b with
  | Some reason => contains "rateLimitExceeded" reason
  | None => false
  end.

(** What the accumulation reads of a body. *)
Definition response_of (b : Body) : Response :=
  {| resp_items := body_items b |}.

Section GoogleSearch.

(** State of the network and of the API behind it. *)
Context {Http : Type}.

(** [requests.get(url, params=params).json()]; a call that raises is not
    modelled. *)
Variable requests_get : Params → Http → Body * Http.

(** [st.secrets['GS1_CX']], [st.secrets['GS1_KEY']], ... *)
Variables GS1_CX GS1_KEY GS2_KEY GS3_KEY : string.

(** Lines 63-67: the same engine three times. *)
Definition GS_CX : list string := [GS1_CX; GS1_CX; GS1_CX].

(** Lines 70-74. *)
Definition GS_KEYS : list string := [GS1_KEY; GS2_KEY; GS3_KEY].

(** The network together with the requests sent so far and their
    answers. *)
Record Net := {
  net_state : Http;
  net_sent : list (Params * Body)
}.

(** [params['cx'] = cx; params['key'] = key] *)
Definition with_credentials (cx key : string) (p : Params) : Params :=
  {| p_q := p_q p; p_key := key; p_cx := cx; p_num := p_num p;
     p_start := p_start p; p_siteSearch := p_siteSearch p;
     p_exactTerms := p_exactTerms p; p_orTerms := p_orTerms p;
     p_excludeTerms := p_excludeTerms p |}.

(** Lines 88-98: [for cx, key in zip(GS_CX, GS_KEYS)], returning the
    first answer that is not a rate-limit error, and [None] when the
    credentials are used up. *)
Fixpoint try_credentials (creds : list (string * string)) (params : Params)
    (n : Net) : option Body * Net :=
  match creds with
  | [] => (None, n)
  | (cx, key) :: rest =>
      let params := with_credentials cx key params in
      let '(response, h) := requests_get params (net_state n) in
      let n' := {| net_state := h;
                   net_sent := net_sent n ++ [(params, response)] |} in
      if negb (rate_limited response) then (Some response, n')
      else try_credentials rest params n'
  end.

(** Lines 79-87: the [params] dict after [params.update(kwargs)], for the
    keyword arguments the three loops pass. *)
Definition search_params (page : nat) (site : string) (t : Terms) : Params :=
  {| p_q := q t; p_key := ""; p_cx := ""; p_num := 10;
     p_start := page * 10 + 1; p_siteSearch := site;
     p_exactTerms := exactTerms t; p_orTerms := orTerms t;
     p_excludeTerms := excludeTerms t |}.

(** Lines 77-98, as the loops call it. *)
Definition google_search (page : nat) (site : string) (t : Terms)
    (n : Net) : option Response * Net :=
  let '(found, n') :=
    try_credentials (zip GS_CX GS_KEYS) (search_params page site t) n in
  (response_of <$> found, n').

(** A request the loops can cause: 10 results of [website] from result
    number 1, 11, ..., 91 on, with the engine [GS1_CX] and one of the
    three keys. *)
Definition website_request (website : string) (p : Params) : Prop :=
  p_siteSearch p = website ∧ p_num p = 10 ∧ p_cx p = GS1_CX
  ∧ p_key p ∈ GS_KEYS
  ∧ ∃ page, page < 10 ∧ p_start p = page * 10 + 1.

End GoogleSearch.

(** ** [check_password] (lines 8-34) and the logout button (106-109) *)

(** How a run of the script goes on: [return True], [st.stop()] or
    [st.rerun()]. *)
Inductive Flow := Proceed | Stop | Rerun.

(** The two [st.error] messages. *)
Inductive Notice := NotConfigured | Incorrect.

(** [check_password()] on the session key [authenticated] (absent on the
    first run), the secret [APP_PASSWORD] (absent when not configured),
    the content of the password field and whether "Login" was clicked.
    Gives the session key afterwards, what was shown and how the run goes
    on. *)
Definition check_password (authenticated : option bool)
    (app_password : option string) (password : string) (login : bool)
    : bool * list Notice * Flow :=
  let authenticated := default false authenticated in
  if negb authenticated then
    let correct_password := default "" app_password in
    if negb (nonempty correct_password) then (false, [NotConfigured], Stop)
    else if login then
      if String.eqb password correct_password then (true, [], Rerun)
      else (false, [Incorrect], Stop)
    else (false, [], Stop)
  else (true, [], Proceed).

(** Lines 106-109: the session key and the flow after the sidebar is
    drawn, given whether "Logout" was clicked. *)
Definition logout_button (authenticated : bool) (logout : bool)
    : bool * Flow :=
  if logout then (false, Rerun) else (authenticated, Proceed).

End Main.

(** * The batch upsert of [direct_airtable_integration.py] *)

Module DirectAirtableIntegration.

(** The dict built by [normalize_record]. *)
Record UpsertRecord := {
  title : value;
  link : value;
  snippet : value;
  source_domain : string;
  search_query : string;
  priority : value;
  scraped_at : string;
  status : string
}.

(** The counters of the [stats] dict. *)
Record Stats := {
  processed : nat;
  created : nat;
  duplicates : nat;
  errors : nat
}.

(** Everything [save_results] does to the outside, in the order it does
    it.  An invocation of the progress callback is recorded with its
    arguments, whether it returns or raises. *)
Inductive Event :=
  | Lookup (lk : value)
      (* self.table.all(formula=match({"link": lk}), max_records=1) *)
  | WarnLookup (lk : value)
      (* print(f"Warning: Duplicate check failed for {link}: ...") *)
  | Create (record : UpsertRecord)
      (* self.table.create(record) *)
  | Sleep
      (* time.sleep(0.2) *)
  | Callback (done total n_created n_errors : nat)
      (* progress_callback(idx + 1, total, stats["created"], stats["errors"]) *)
  | ErrorSaving (lk : value).
      (* print(f"Error saving record {link}: {error_msg}") and its hints *)

Definition is_lookup (ev : Event) : bool :=
  match ev with Lookup _ => true | _ => false end.

Definition is_create (ev : Event) : bool :=
  match ev with Create _ => true | _ => false end.

Definition is_callback (ev : Event) : bool :=
  match ev with Callback _ _ _ _ => true | _ => false end.

(** The two requests the table receives. *)
Definition is_store_request (ev : Event) : bool := is_lookup ev || is_create ev.

(** [stats["errors"] += 1; stats["processed"] += 1] and its siblings. *)
Definition count_error (st : Stats) : Stats :=
  {| processed := S (processed st); created := created st;
     duplicates := duplicates st; errors := S (errors st) |}.

Definition count_duplicate (st : Stats) : Stats :=
  {| processed := S (processed st); created := created st;
     duplicates := S (duplicates st); errors := errors st |}.

Definition count_created (st : Stats) : Stats :=
  {| processed := S (processed st); created := S (created st);
     duplicates := duplicates st; errors := errors st |}.

(** Every processed entry is counted in exactly one of the three other
    counters. *)
Definition balanced (st : Stats) : Prop :=
  created st + duplicates st + errors st = processed st.

(** A work-list entry [(item, query, item_priority)]. *)
Abbreviation Entry := (item * string * value)%type.

(** [item.get("link", "")] of an entry. *)
Definition link_of (e : Entry) : value := dict_get "link" (VStr "") e.1.1.

(** The first argument of every callback invocation, in order. *)
Definition callbacks (evs : list Event) : list nat :=
  omap (λ ev, match ev with Callback n _ _ _ => Some n | _ => None end) evs.

(** The callback invocations the loop makes from index [idx] on when no
    invocation raises: one per entry whose link is truthy, with
    [idx + 1]. *)
Fixpoint reported (idx : nat) (work : list Entry) : list nat :=
  match work with
  | [] => []
  | e :: rest =>
      (if truthy (link_of e) then [idx + 1] else []) ++ reported (S idx) rest
  end.

(** A progress callback: a function of [(processed, total, created,
    errors)] over a state of its own; the boolean is [false] when the
    call raises. *)
Definition ProgressCallback (Obs : Type) : Type :=
  nat → nat → nat → nat → Obs → bool * Obs.

(** The callbacks that return from every call; no callback at all is one
    of them. *)
Definition returns_normally {Obs : Type}
    (progress_callback : option (ProgressCallback Obs)) : Prop :=
  ∀ cb n total n_created n_errors o,
    progress_callback = Some cb →
    (cb n total n_created n_errors o).1 = true.

(** Whether the callback, if one was passed, returns from the call made
    for the entry at [idx] with the counters [st], in its state [o]. *)
Definition callback_returns {Obs : Type}
    (progress_callback : option (ProgressCallback Obs))
    (total idx : nat) (st : Stats) (o : Obs) : bool :=
  match progress_callback with
  | None => true
  | Some cb => (cb (idx + 1) total (created st) (errors st) o).1
  end.

Section Upsert.

(** State of the Airtable table, the records it lists, and the state of
    the progress callback. *)
Context {Tbl Rec Obs : Type}.

(** [self.table.all(formula=match({"link": link}), max_records=1)];
    [None] when the call (or building the formula) raises. *)
Variable table_all : value → Tbl → option (list Rec) * Tbl.

(** [self.table.create(record)]; [false] when it raises. *)
Variable table_create : UpsertRecord → Tbl → bool * Tbl.

(** [urlparse(url).netloc]; [None] when it raises. *)
Variable urlparse_netloc : string → option string.

(** [datetime.utcnow().date().isoformat()] *)
Variable today : string.

(** Lines 31-38.  A link that is not a string makes [urlparse] raise. *)
Definition extract_domain (url : value) : string :=
  match url with
  | VStr s => default "" (urlparse_netloc s)
  | VInt _ => ""
  end.

(** Lines 40-70. *)
Definition normalize_record (it : item) (query : string)
    (item_priority : value) : UpsertRecord :=
  {| title := dict_get "title" (VStr "") it;
     link := dict_get "link" (VStr "") it;
     snippet := dict_get "snippet" (VStr "") it;
     source_domain := extract_domain (dict_get "link" (VStr "") it);
     search_query := query;
     priority := item_priority;
     scraped_at := today;
     status := "Todo" |}.

(** Lines 103-109: the flattened work list, in the iteration order of
    the [results] dict, here its list of [(website, items)] pairs. *)
Definition all_items (results : list (string * list item))
    (search_queries : gmap string string) (dflt_priority : Z)
    : list Entry :=
  '(website, items) ← results;
  let query := default ("search on " +:+ website)
                 (search_queries !! website) in
  (λ it : item, (it, query, dict_get "priority" (VInt dflt_priority) it))
    <$> items.

(** The loop state: the counters, what was done so far, the table, the
    state of the callback, and whether an exception has left the loop
    ([save_results] then raises instead of returning [stats]). *)
Record Run := {
  stats : Stats;
  events : list Event;
  store : Tbl;
  observer : Obs;
  escaped : bool
}.

(** [stats[...] += 1; stats["processed"] += 1] on the loop state. *)
Definition counted (count : Stats → Stats) (r : Run) : Run :=
  {| stats := count (stats r); events := events r; store := store r;
     observer := observer r; escaped := escaped r |}.

(** What the loop does next, appended to the events. *)
Definition logged (evs : list Event) (r : Run) : Run :=
  {| stats := stats r; events := events r ++ evs; store := store r;
     observer := observer r; escaped := escaped r |}.

(** The table after a request. *)
Definition stored (s : Tbl) (r : Run) : Run :=
  {| stats := stats r; events := events r; store := s;
     observer := observer r; escaped := escaped r |}.

(** [if progress_callback: progress_callback(idx + 1, total, ...)];
    [progress_callback] is [None] when no callback was passed.  The
    boolean is [false] when the callback raises. *)
Definition notify (progress_callback : option (ProgressCallback Obs))
    (total idx : nat) (r : Run) : bool * Run :=
  match progress_callback with
  | None => (true, r)
  | Some cb =>
      let '(returned, o) :=
        cb (idx + 1) total (created (stats r)) (errors (stats r))
           (observer r) in
      (returned,
       {| stats := stats r;
          events := events r ++ [Callback (idx + 1) total (created (stats r))
                                          (errors (stats r))];
          store := store r; observer := o; escaped := escaped r |})
  end.

(** Lines 157-164, the [except] of the loop body: count an error, report,
    print.  No handler is around the callback of line 161: when it raises,
    the exception leaves [save_results]. *)
Definition handle_exception (progress_callback : option (ProgressCallback Obs))
    (total idx : nat) (lk : value) (r : Run) : Run :=
  let '(returned, r') :=
    notify progress_callback total idx (counted count_error r) in
  if returned then logged [ErrorSaving lk] r'
  else {| stats := stats r'; events := events r'; store := store r';
          observer := observer r'; escaped := true |}.

(** Lines 139-164: normalize, create, count, sleep, report.  The [create]
    of line 145 and the callback of line 155 are both inside the [try]:
    when either raises, the [except] of lines 157-164 runs. *)
Definition write_item (progress_callback : option (ProgressCallback Obs))
    (total idx : nat) (e : Entry) (r : Run) : Run :=
  let '(it, query, item_priority) := e in
  let record := normalize_record it query item_priority in
  let lk := dict_get "link" (VStr "") it in
  let '(ok, s) := table_create record (store r) in
  let r1 := logged [Create record] (stored s r) in
  if ok then
    let '(returned, r2) :=
      notify progress_callback total idx
        (logged [Sleep] (counted count_created r1)) in
    if returned then r2
    else handle_exception progress_callback total idx lk r2
  else handle_exception progress_callback total idx lk r1.

(** Lines 114-164: the body of the loop for one entry.  The callback of
    line 131 is inside the inner [try]: when it raises, the [except] of
    lines 133-137 prints its warning and the entry goes on to the
    write. *)
Definition process_item (check_duplicates : bool)
    (progress_callback : option (ProgressCallback Obs))
    (total idx : nat) (e : Entry) (r : Run) : Run :=
  let lk := link_of e in
  if negb (truthy lk) then counted count_error r
  else if check_duplicates then
    let '(existing, s) := table_all lk (store r) in
    let r1 := logged [Lookup lk] (stored s r) in
    match existing with
    | Some (_ :: _) =>
        let '(returned, r2) :=
          notify progress_callback total idx (counted count_duplicate r1) in
        if returned then r2
        else write_item progress_callback total idx e
               (logged [WarnLookup lk] r2)
    | Some [] => write_item progress_callback total idx e r1
    | None =>
        write_item progress_callback total idx e (logged [WarnLookup lk] r1)
    end
  else write_item progress_callback total idx e r.

(** Line 113: [for idx, (...) in enumerate(all_items)], from index
    [idx] on; nothing more is done once an exception has left the loop. *)
Fixpoint process_from (check_duplicates : bool)
    (progress_callback : option (ProgressCallback Obs))
    (total idx : nat) (work : list Entry) (r : Run) : Run :=
  match work with
  | [] => r
  | e :: rest =>
      if escaped r then r
      else
        process_from check_duplicates progress_callback total (S idx) rest
          (process_item check_duplicates progress_callback total idx e r)
  end.

(** Lines 72-176.  [search_queries] is [None] for the default argument,
    [progress_callback] is [None] for its default; [o] is the state the
    callback starts in.  When [escaped] is [false] the call returns the
    [stats] of the result; when it is [true] the call raises, and the
    result is what it had done by then. *)
Definition save_results (results : list (string * list item))
    (search_queries : option (gmap string string)) (dflt_priority : Z)
    (check_duplicates : bool)
    (progress_callback : option (ProgressCallback Obs))
    (s : Tbl) (o : Obs) : Run :=
  let work := all_items results (default ∅ search_queries) dflt_priority in
  process_from check_duplicates progress_callback (length work) 0 work
    {| stats := {| processed := 0; created := 0;
                   duplicates := 0; errors := 0 |};
       events := []; store := s; observer := o; escaped := false |}.

End Upsert.

(** The links looked up, the records handed to [create], the pauses and
    the failed writes among a list of events, each in order. *)
Definition lookups (evs : list Event) : list value :=
  omap (λ ev, match ev with Lookup lk => Some lk | _ => None end) evs.

Definition creates (evs : list Event) : list UpsertRecord :=
  omap (λ ev, match ev with Create r => Some r | _ => None end) evs.

Definition sleeps (evs : list Event) : list unit :=
  omap (λ ev, match ev with Sleep => Some () | _ => None end) evs.

Definition failed_writes (evs : list Event) : list value :=
  omap (λ ev, match ev with ErrorSaving lk => Some lk | _ => None end) evs.

(** The entries with and without a truthy link. *)
Definition linked (work : list Entry) : list Entry :=
  filter (λ e, truthy (link_of e) = true) work.

Definition unlinked (work : list Entry) : list Entry :=
  filter (λ e, truthy (link_of e) = false) work.

(** A callback invocation reports the position [n] in a batch of [total]
    and the counters [created] and [errors] of [st]. *)
Definition reports (n total : nat) (st : Stats) (ev : Event) : Prop :=
  match ev with
  | Callback n' t n_created n_errors =>
      n' = n ∧ t = total ∧ n_created = created st ∧ n_errors = errors st
  | _ => True
  end.

(** What a callback invocation may report in a batch of [total] entries:
    that total, a position within it, and counts that fit the position. *)
Definition sound_progress (total : nat) (ev : Event) : Prop :=
  match ev with
  | Callback n t n_created n_errors =>
      t = total ∧ 1 ≤ n ∧ n ≤ total ∧ n_created + n_errors ≤ n
  | _ => True
  end.

End DirectAirtableIntegration.

(** * The processor client of [airtable_integration.py] *)

Module AirtableIntegration.

(** The JSON body posted to the processor (lines 50-54). *)
Record Payload := {
  pl_results : list item;
  pl_search_query : string;
  pl_priority : Z
}.

(** Lines 45-47: [item.copy()] with the two context keys set. *)
Definition with_context (search_query : value) (priority : Z) (it : item)
    : item :=
  <["priority" := VInt priority]> (<["search_query" := search_query]> it).

(** Lines 37-48: the flattened list, in the iteration order of the
    [results] dict, here its list of [(website, items)] pairs. *)
Definition all_results (results : list (string * list item))
    (search_queries : gmap string (gmap string value)) (priority : Z)
    : list item :=
  '(website, items) ← results;
  let query_info := default ∅ (search_queries !! website) in
  let search_query :=
    default (VStr ("search on " +:+ website)) (query_info !! "query") in
  with_context search_query priority <$> items.

(** What a session holds for a website under [search_queries]: the dict
    that [send_results] declares, or the [str] that [main.py] stores
    there (lines 201, 215, 244). *)
Inductive QueryInfo :=
  | QStr (s : string)
  | QDict (d : gmap string value).

(** How a call ends: it returns, or it raises the [AttributeError] of
    [query_info.get] on a [str] (line 41). *)
Inductive Outcome (A : Type) :=
  | Returns (a : A)
  | AttributeError.
Arguments Returns {A} a.
Arguments AttributeError {A}.

(** Lines 37-48 on the [search_queries] of a session.  Line 41 is reached
    for every website of [results], also for one without items, and
    before anything is posted. *)
Fixpoint all_results_untyped (results : list (string * list item))
    (search_queries : gmap string QueryInfo) (priority : Z)
    : Outcome (list item) :=
  match results with
  | [] => Returns []
  | (website, items) :: rest =>
      match default (QDict ∅) (search_queries !! website) with
      | QStr _ => AttributeError
      | QDict query_info =>
          let search_query :=
            default (VStr ("search on " +:+ website))
              (query_info !! "query") in
          match all_results_untyped rest search_queries priority with
          | Returns tl =>
              Returns ((with_context search_query priority <$> items) ++ tl)
          | AttributeError => AttributeError
          end
      end
  end.

Section Client.

(** State of the processor service and the JSON it answers with. *)
Context {Proc Json : Type}.

(** [requests.post(url, json=payload, ...)], [raise_for_status()] and
    [.json()]: the decoded answer, or the text of the
    [RequestException]. *)
Variable requests_post : string → Payload → Proc → (Json + string) * Proc.

(** What a call hands back, the posts it made and the service state. *)
Record Sent := {
  answer : Json + string;   (* [response.json()] or [{"error": str(e)}] *)
  posted : list (string * Payload);
  processor : Proc
}.

(** Lines 20-67 on arguments of the declared types; [processor_url] is
    [self.processor_url]. *)
Definition send_results (processor_url : string)
    (results : list (string * list item))
    (search_queries : gmap string (gmap string value)) (priority : Z)
    (p : Proc) : Sent :=
  let payload := {| pl_results := all_results results search_queries priority;
                    pl_search_query := "Greylitsearcher batch";
                    pl_priority := priority |} in
  let '(response, p') := requests_post processor_url payload p in
  {| answer := response;
     posted := [(processor_url, payload)];
     processor := p' |}.

(** Lines 20-67 on the [search_queries] of a session, as
    [integrate_with_streamlit] passes them. *)
Definition send_results_untyped (processor_url : string)
    (results : list (string * list item))
    (search_queries : gmap string QueryInfo) (priority : Z)
    (p : Proc) : Outcome Sent :=
  match all_results_untyped results search_queries priority with
  | AttributeError => AttributeError
  | Returns all_results =>
      let payload := {| pl_results := all_results;
                        pl_search_query := "Greylitsearcher batch";
                        pl_priority := priority |} in
      let '(response, p') := requests_post processor_url payload p in
      Returns {| answer := response;
                 posted := [(processor_url, payload)];
                 processor := p' |}
  end.

(** The two keys [integrate_with_streamlit] reads of the session state;
    each may be absent. *)
Record SessionState := {
  ss_results : option (list (string * list item));
  ss_search_queries : option (gmap string QueryInfo)
}.

(** Lines 70-108; it returns [None] when the session holds no
    [results]. *)
Definition integrate_with_streamlit (st_session_state : SessionState)
    (processor_url : option string) (p : Proc) : Outcome (option Sent) :=
  let processor_url := default "http://localhost:8001/process" processor_url in
  match ss_results st_session_state with
  | Some results =>
      let search_queries := default ∅ (ss_search_queries st_session_state) in
      match send_results_untyped processor_url results search_queries 1 p with
      | Returns response => Returns (Some response)
      | AttributeError => AttributeError
      end
  | None => Returns None
  end.

End Client.

End AirtableIntegration.

(** * Concrete services used to run the models *)

Module Scenarios.
Import Main DirectAirtableIntegration.

(** A search service that answers from a fixed script of replies, whatever
    is asked; once the script is used up every key is over its limit. *)
Definition scripted (page : nat) (site : string) (t : Terms)
    (w : list (option Response)) : option Response * list (option Response) :=
  match w with
  | [] => (None, [])
  | reply :: w' => (reply, w')
  end.

(** Links "a", "b", "c", ... *)
Definition letter (i : nat) : string :=
  String (Ascii.ascii_of_nat (97 + i)) EmptyString.

Definition hit (lk : string) : item := {["link" := VStr lk]}.

(** [n] hits with the links [letter k], [letter (k+1)], ... *)
Definition hits (k n : nat) : list item := (λ i, hit (letter i)) <$> seq k n.

Definition page (its : list item) : Response := {| resp_items := Some its |}.

Definition no_terms : Terms :=
  {| q := ""; exactTerms := ""; orTerms := ""; excludeTerms := "" |}.

Definition words (s : string) : Terms :=
  {| q := s; exactTerms := ""; orTerms := ""; excludeTerms := "" |}.

(** The record of a request for page [n] of tier [k] on "example.org". *)
Definition asked (k n : nat) (t : Terms) (reply : option Response)
    : Exchange :=
  {| ex_tier := k; ex_page := n; ex_site := "example.org";
     ex_terms := t; ex_reply := reply |}.

(** The service lists the link "u" twice on the only page. *)
Definition repeated_link : list (option Response) :=
  [Some (page [hit "u"; hit "u"])].

Definition repeated_link_outcome : @Acc (list (option Response)) :=
  {| results := tag 1 [hit "u"; hit "u"];
     limitExceeded := false;
     log := [asked 1 0 (words "report") (Some (page [hit "u"; hit "u"]))];
     world := [] |}.

(** The second page of tier 1 lists the link "a" of the first again. *)
Definition repeated_across_pages : list (option Response) :=
  [Some (page (hits 0 10)); Some (page (hits 0 1))].

Definition repeated_across_pages_outcome : @Acc (list (option Response)) :=
  {| results := tag 1 (hits 0 10) ++ tag 1 (hits 0 1);
     limitExceeded := false;
     log := [asked 1 0 (words "report") (Some (page (hits 0 10)));
             asked 1 1 (words "report") (Some (page (hits 0 1)))];
     world := [] |}.

(** Tier 1 finds nothing; the page of tier 2 lists the link "u" twice. *)
Definition repeated_in_tier2 : list (option Response) :=
  [Some (page []); Some (page [hit "u"; hit "u"])].

Definition repeated_in_tier2_outcome : @Acc (list (option Response)) :=
  {| results := tag 2 [hit "u"; hit "u"];
     limitExceeded := false;
     log := [asked 1 0 (words "report") (Some (page []));
             asked 2 0 (words "study") (Some (page [hit "u"; hit "u"]))];
     world := [] |}.

(** The first request finds "a", "b", "c"; the second "c", "d", "e". *)
Definition overlapping_tiers : list (option Response) :=
  [Some (page (hits 0 3)); Some (page (hits 2 3))].

(** ... with terms in tiers 1 and 2: tier 2 adds "d" and "e". *)
Definition overlapping_outcome : @Acc (list (option Response)) :=
  {| results := tag 1 (hits 0 3) ++ tag 2 (hits 3 2);
     limitExceeded := false;
     log := [asked 1 0 (words "report") (Some (page (hits 0 3)));
             asked 2 0 (words "study") (Some (page (hits 2 3)))];
     world := [] |}.

(** ... with terms in tier 1 only: the second reply is never asked for. *)
Definition tier1_only_outcome : @Acc (list (option Response)) :=
  {| results := tag 1 (hits 0 3);
     limitExceeded := false;
     log := [asked 1 0 (words "report") (Some (page (hits 0 3)))];
     world := [Some (page (hits 2 3))] |}.

(** ... with no terms at all. *)
Definition no_terms_outcome : @Acc (list (option Response)) :=
  {| results := tag 1 (hits 0 3);
     limitExceeded := false;
     log := [asked 1 0 no_terms (Some (page (hits 0 3)))];
     world := [Some (page (hits 2 3))] |}.

(** Tier 1 finds 39 items on four pages; tier 2 finds 10 more. *)
Definition more_than_forty : list (option Response) :=
  [Some (page (hits 0 10)); Some (page (hits 10 10));
   Some (page (hits 20 10)); Some (page (hits 30 9));
   Some (page (hits 39 10))].

Definition more_than_forty_list : list item :=
  tag 1 (hits 0 39) ++ tag 2 (hits 39 1).

Definition more_than_forty_session : @Session (list (option Response)) :=
  {| s_results := <["example.org" := more_than_forty_list]> ∅;
     s_limit := false;
     s_world := [] |}.

(** Pages of 10, 10 and 3 raw items, and one more that is never asked
    for. *)
Definition short_third_page : list (option Response) :=
  [Some (page (hits 0 10)); Some (page (hits 10 10));
   Some (page (hits 20 3)); Some (page (hits 23 10))].

Definition short_third_page_outcome : @Acc (list (option Response)) :=
  {| results := tag 1 (hits 0 23);
     limitExceeded := false;
     log := [asked 1 0 (words "report") (Some (page (hits 0 10)));
             asked 1 1 (words "report") (Some (page (hits 10 10)));
             asked 1 2 (words "report") (Some (page (hits 20 3)))];
     world := [Some (page (hits 23 10))] |}.

(** A table kept in memory as the list of the links written to it;
    creating the link "bad" is refused. *)
Definition mem_all (lk : value) (t : list value)
    : option (list value) * list value :=
  (Some (filter (λ x, x = lk) t), t).

Definition mem_create (r : UpsertRecord) (t : list value)
    : bool * list value :=
  if decide (link r = VStr "bad") then (false, t) else (true, t ++ [link r]).

(** The same table without a [link] field to match on: every lookup
    raises. *)
Definition broken_all (lk : value) (t : list value)
    : option (list value) * list value :=
  (None, t).

Definition netloc_unknown (url : string) : option string := None.

(** The batch of the specification's example: an item with an empty link,
    one the table refuses and one it accepts. *)
Definition mixed_batch : list (string * list item) :=
  [("example.org", [hit ""; hit "bad"; hit "ok"])].

(** A progress callback that returns from every call; it keeps no
    state. *)
Definition always_returns : ProgressCallback unit :=
  λ _ _ _ _ o, (true, o).

(** A progress callback that raises from its first call and returns from
    every later one; its state counts the calls. *)
Definition raises_once : ProgressCallback nat :=
  λ _ _ _ _ calls, (negb (Nat.eqb calls 0), S calls).

(** A progress callback that raises from every call. *)
Definition always_raises : ProgressCallback unit :=
  λ _ _ _ _ o, (false, o).

(** [save_results(mixed_batch, check_duplicates=False,
    progress_callback=...)] on an empty table. *)
Definition mixed_run : Run :=
  save_results mem_all mem_create netloc_unknown "2024-05-01"
    mixed_batch None 1 false (Some always_returns) [] ().

(** A batch of one item, at the start of a run with duplicate checks on a
    table whose lookups raise. *)
Definition fresh_run : @Run (list value) unit :=
  {| stats := {| processed := 0; created := 0; duplicates := 0; errors := 0 |};
     events := []; store := []; observer := (); escaped := false |}.

(** A batch of one item with a link. *)
Definition single_batch : list (string * list item) :=
  [("example.org", [hit "ok"])].

(** [save_results(single_batch, progress_callback=...)] with a callback
    that raises once: on an empty table without the duplicate check, and
    with the duplicate check on a table that holds the link already. *)
Definition raised_after_write : Run :=
  save_results mem_all mem_create netloc_unknown "2024-05-01"
    single_batch None 1 false (Some raises_once) [] 0.

Definition raised_after_duplicate : Run :=
  save_results mem_all mem_create netloc_unknown "2024-05-01"
    single_batch None 1 true (Some raises_once) [VStr "ok"] 0.

(** Every key is over its limit on the second page of tier 1; tier 2
    is tried all the same and finds three more items. *)
Definition limit_in_tier1 : list (option Response) :=
  [Some (page (hits 0 10)); None; Some (page (hits 10 3))].

Definition limit_in_tier1_outcome : @Acc (list (option Response)) :=
  {| results := tag 1 (hits 0 10) ++ tag 2 (hits 10 3);
     limitExceeded := true;
     log := [asked 1 0 (words "report") (Some (page (hits 0 10)));
             asked 1 1 (words "report") None;
             asked 2 0 (words "study") (Some (page (hits 10 3)))];
     world := [] |}.

(** A service that always has three hits with a link for a page. *)
Definition steady (n : nat) (site : string) (t : Terms) (w : nat)
    : option Response * nat :=
  (Some (page (hits (n * 3) 3)), S w).

(** An API that refuses the key "key-1" for its rate limit and answers
    the other keys with three hits; the state counts the requests. *)
Definition limited_body : Body :=
  {| body_error := Some "rateLimitExceeded"; body_items := None |}.

Definition found_body : Body :=
  {| body_error := None; body_items := Some (hits 0 3) |}.

Definition one_key_spent (p : Params) (h : nat) : Body * nat :=
  (if String.eqb (p_key p) "key-1" then limited_body else found_body, S h).

Definition report_request (key : string) : Params :=
  {| p_q := "report"; p_key := key; p_cx := "engine"; p_num := 10;
     p_start := 1; p_siteSearch := "example.org";
     p_exactTerms := ""; p_orTerms := ""; p_excludeTerms := "" |}.

Definition one_key_spent_outcome : @Acc (@Net nat) :=
  {| results := tag 1 (hits 0 3);
     limitExceeded := false;
     log := [asked 1 0 (words "report") (Some (page (hits 0 3)))];
     world := {| net_state := 2;
                 net_sent := [(report_request "key-1", limited_body);
                              (report_request "key-2", found_body)] |} |}.

(** A batch in which every item has a link. *)
Definition linked_batch : list (string * list item) :=
  [("example.org", [hit "ok"; hit "fine"])].

(** A processor that answers every post with the number of items it was
    sent; the state counts the posts. *)
Definition counting_post (url : string) (payload : AirtableIntegration.Payload)
    (p : nat) : (nat + string) * nat :=
  (inl (length (AirtableIntegration.pl_results payload)), S p).

(** A session whose only result was tagged by tier 2, without
    [search_queries]. *)
Definition tier2_session : AirtableIntegration.SessionState :=
  {| AirtableIntegration.ss_results :=
       Some [("example.org", [<["priority" := VInt 2]> (hit "d")])];
     AirtableIntegration.ss_search_queries := None |}.

(** The same result in a session as [main.py] leaves it: the query label
    of the website is a [str]. *)
Definition labelled_session : AirtableIntegration.SessionState :=
  {| AirtableIntegration.ss_results :=
       Some [("example.org", [<["priority" := VInt 2]> (hit "d")])];
     AirtableIntegration.ss_search_queries :=
       Some {["example.org" := AirtableIntegration.QStr "report; study"]} |}.

End Scenarios.

(** * Facts about the search accumulation *)

Section AccumulatorFacts.
Import Main.

Lemma link_values_app l1 l2 :
  link_values (l1 ++ l2) = link_values l1 ++ link_values l2.
Proof. apply omap_app. Qed.

Lemma link_values_tag p its : link_values (tag p its) = link_values its.
Proof.
  induction its as [|it its IH]; [done|].
  unfold link_values, tag in *. csimpl.
  rewrite lookup_insert_ne by done. by rewrite IH.
Qed.

Lemma elem_of_link_values lk (l : list item) :
  lk ∈ link_values l ↔ ∃ it : item, it ∈ l ∧ it !! "link" = Some lk.
Proof. apply list_elem_of_omap. Qed.

Lemma links_Some acc seen : links acc = Some seen → link_values acc = seen.
Proof.
  intros H%mapM_Some_1.
  induction H as [|it lk acc seen Hit _ IH]; [done|].
  unfold link_values in *. csimpl. rewrite Hit. csimpl. by rewrite IH.
Qed.

Lemma sublist_link_values (l1 l2 : list item) :
  l1 `sublist_of` l2 → link_values l1 `sublist_of` link_values l2.
Proof.
  induction 1 as [|x l1 l2 _ IH|x l1 l2 _ IH]; unfold link_values in *; csimpl.
  - constructor.
  - destruct (x !! "link"); csimpl; [by constructor|done].
  - destruct (x !! "link"); csimpl; [by constructor|done].
Qed.

Lemma new_items_sublist acc its new :
  new_items acc its = Some new → new `sublist_of` its.
Proof.
  revert new. induction its as [|it its IH]; intros new H; simpl in H.
  - by simplify_eq.
  - destruct (it !! "link") as [lk|]; [|done]. simpl in H.
    destruct (links acc) as [seen|]; [|done]. simpl in H.
    destruct (new_items acc its) as [tl|]; [|done]. simpl in H.
    simplify_eq. case_decide.
    + constructor. by apply IH.
    + constructor. by apply IH.
Qed.

Lemma new_items_fresh acc its new :
  new_items acc its = Some new →
  Forall (λ y : item, ∃ lk, y !! "link" = Some lk ∧ lk ∉ link_values acc) new.
Proof.
  revert new. induction its as [|it its IH]; intros new H; simpl in H.
  - simplify_eq. constructor.
  - destruct (it !! "link") as [lk|] eqn:Hlk; [|done]. simpl in H.
    destruct (links acc) as [seen|] eqn:Hseen; [|done]. simpl in H.
    destruct (new_items acc its) as [tl|]; [|done]. simpl in H.
    simplify_eq. apply links_Some in Hseen. subst seen.
    case_decide; [by apply IH|].
    constructor; [by eauto|by apply IH].
Qed.

Lemma new_items_tagged acc p its new :
  new_items acc (tag p its) = Some new →
  Forall (λ y : item, y !! "priority" = Some (VInt p)) new.
Proof.
  intros Hsub%new_items_sublist%sublist_subseteq.
  apply Forall_forall. intros y Hy%Hsub.
  apply list_elem_of_fmap in Hy as (x & -> & _). apply lookup_insert_eq.
Qed.

Lemma new_items_fresh_in acc k its new :
  new_items acc (tag (Z.of_nat k) its) = Some new → fresh_in k acc new.
Proof.
  intros H. unfold fresh_in. apply Forall_and. split.
  - by eapply new_items_tagged.
  - by eapply new_items_fresh.
Qed.

Lemma fresh_in_weaken k acc acc' added :
  fresh_in k (acc ++ acc') added → fresh_in k acc added.
Proof.
  unfold fresh_in. intros H. eapply Forall_impl; [exact H|].
  intros y [Hp (lk & Hlk & Hnew)].
  split; [done|]. exists lk. split; [done|].
  rewrite link_values_app in Hnew. set_solver.
Qed.

Lemma short_last_single e : short_last [e].
Proof. intros [|i] e' H _; [done|]. by destruct i. Qed.

Lemma short_last_cons e new :
  ¬ short_page e → short_last new → short_last (e :: new).
Proof.
  intros He Hnew [|i] e' H Hshort; simpl in *.
  - by simplify_eq.
  - f_equal. by eapply Hnew.
Qed.

Lemma stop_paging_false res r :
  stop_paging res r = false → length res < 40 ∧ 10 ≤ length (get_items r).
Proof.
  unfold stop_paging. intros [H1 H2]%orb_false_elim.
  apply Nat.leb_gt in H1. apply Nat.ltb_ge in H2. done.
Qed.

Context {W : Type}.
Variable google_search : nat → string → Terms → W → option Response * W.

Lemma tier1_pages_spec website t pages a :
  ∃ new,
    log (tier1_pages google_search website t pages a) = log a ++ new
    ∧ results (tier1_pages google_search website t pages a)
      = results a ++ tag 1 (new ≫= reply_items)
    ∧ Forall (λ e, ex_tier e = 1) new
    ∧ length new ≤ length pages
    ∧ short_last new
    ∧ (pages ≠ [] → new ≠ []).
Proof.
  revert a. induction pages as [|page rest IH]; intros a; simpl.
  { exists []. rewrite !app_nil_r. repeat split; by try constructor. }
  destruct (google_search page website t (world a)) as [[r|] w].
  - destruct (stop_paging _ r) eqn:Hstop.
    + eexists [_]. simpl. rewrite app_nil_r.
      repeat split; try done.
      * by repeat constructor.
      * lia.
      * apply short_last_single.
    + match goal with |- context [tier1_pages _ _ _ _ ?a'] =>
        destruct (IH a') as (new & Hlog & Hres & Htier & Hlen & Hlast & _)
      end.
      simpl in Hlog, Hres.
      eexists (_ :: new). rewrite Hlog, Hres.
      rewrite <- !(assoc_L (++)). simpl.
      unfold tag. rewrite fmap_app.
      repeat split; try done.
      * by constructor.
      * lia.
      * apply short_last_cons; [|done].
        intros (r' & ? & ?). simpl in *. simplify_eq.
        apply stop_paging_false in Hstop. lia.
  - eexists [_]. simpl.
    repeat split; try done.
    + by rewrite app_nil_r.
    + by repeat constructor.
    + lia.
    + apply short_last_single.
Qed.

Lemma dedup_pages_spec k website t pages a a' :
  dedup_pages google_search k website t pages a = Some a' →
  ∃ new added,
    log a' = log a ++ new
    ∧ results a' = results a ++ added
    ∧ Forall (λ e, ex_tier e = k) new
    ∧ length new ≤ length pages
    ∧ short_last new
    ∧ fresh_in k (results a) added.
Proof.
  revert a. induction pages as [|page rest IH]; intros a H; simpl in H.
  { simplify_eq. exists [], []. rewrite !app_nil_r.
    repeat split; by try constructor. }
  destruct (google_search page website t (world a)) as [[r|] w].
  - destruct (new_items _ _) as [new1|] eqn:Hnew; [|done]. simpl in H.
    apply new_items_fresh_in in Hnew.
    destruct (stop_paging _ r) eqn:Hstop.
    + simplify_eq. eexists [_], new1. simpl.
      repeat split; try done.
      * by repeat constructor.
      * lia.
      * apply short_last_single.
    + apply IH in H as (new & added & Hlog & Hres & Htier & Hlen & Hlast & Hfresh).
      simpl in Hlog, Hres, Hfresh.
      eexists (_ :: new), (new1 ++ added). rewrite Hlog, Hres.
      rewrite <- !(assoc_L (++)). simpl.
      repeat split; try done.
      * by constructor.
      * lia.
      * apply short_last_cons; [|done].
        intros (r' & ? & ?). simpl in *. simplify_eq.
        apply stop_paging_false in Hstop. lia.
      * apply Forall_app. split; [done|]. by eapply fresh_in_weaken.
  - simplify_eq. eexists [_], []. simpl. rewrite app_nil_r.
    repeat split; try done.
    + by repeat constructor.
    + lia.
    + apply short_last_single.
    + constructor.
Qed.

Lemma search_tier_spec k website t budget a a' :
  search_tier google_search k website t budget a = Some a' →
  ∃ new added,
    log a' = log a ++ new
    ∧ results a' = results a ++ added
    ∧ Forall (λ e, ex_tier e = k) new
    ∧ length new ≤ budget
    ∧ short_last new
    ∧ fresh_in k (results a) added
    ∧ (active t = false → new = []).
Proof.
  unfold search_tier, tier_guard. intros H.
  destruct (_ && _) eqn:Hguard.
  - apply dedup_pages_spec in H
      as (new & added & Hlog & Hres & Htier & Hlen & Hlast & Hfresh).
    rewrite length_seq in Hlen.
    exists new, added. repeat split; try done.
    intros Hoff. rewrite Hoff, andb_false_r in Hguard. done.
  - simplify_eq. exists [], []. rewrite !app_nil_r.
    repeat split; try done; try (simpl; lia); constructor.
Qed.

(** A page of a later tier keeps the links distinct when the page itself
    repeats none. *)
Lemma new_items_nodup acc p its new :
  new_items acc (tag p its) = Some new →
  NoDup (link_values its) → NoDup (link_values acc) →
  NoDup (link_values (acc ++ new)).
Proof.
  intros Hnew Hits Hacc. rewrite link_values_app. apply NoDup_app.
  split; [done|]. split.
  - intros lk Hin (y & Hy & Hlk)%elem_of_link_values.
    apply new_items_fresh in Hnew.
    rewrite Forall_forall in Hnew.
    destruct (Hnew y Hy) as (lk' & Hlk' & Hfresh). by simplify_eq.
  - apply new_items_sublist in Hnew. apply sublist_link_values in Hnew.
    rewrite link_values_tag in Hnew.
    by apply (sublist_NoDup _ _ Hits).
Qed.

Lemma dedup_pages_nodup k website t pages a a' :
  dedup_pages google_search k website t pages a = Some a' →
  (∀ e, e ∈ log a' → NoDup (link_values (reply_items e))) →
  NoDup (link_values (results a)) →
  NoDup (link_values (results a')).
Proof.
  revert a. induction pages as [|page rest IH]; intros a H Hpages Hacc;
    simpl in H.
  { by simplify_eq. }
  destruct (google_search page website t (world a)) as [[r|] w].
  - destruct (new_items _ _) as [new1|] eqn:Hnew; [|done]. simpl in H.
    destruct (stop_paging _ r) eqn:Hstop.
    + simplify_eq. simpl in *. eapply new_items_nodup; [done| |done].
      apply (Hpages {| ex_tier := k; ex_page := page; ex_site := website;
                        ex_terms := t; ex_reply := Some r |}).
      set_solver.
    + pose proof (dedup_pages_spec _ _ _ _ _ _ H) as (new & _ & Hlog & _).
      simpl in Hlog.
      eapply IH; [done|done|]. simpl.
      eapply new_items_nodup; [done| |done].
      apply (Hpages {| ex_tier := k; ex_page := page; ex_site := website;
                        ex_terms := t; ex_reply := Some r |}).
      rewrite Hlog. set_solver.
  - by simplify_eq.
Qed.

Lemma search_tier_nodup k website t budget a a' :
  search_tier google_search k website t budget a = Some a' →
  (∀ e, e ∈ log a' → NoDup (link_values (reply_items e))) →
  NoDup (link_values (results a)) →
  NoDup (link_values (results a')).
Proof.
  unfold search_tier. destruct (tier_guard a t).
  - apply dedup_pages_nodup.
  - by intros; simplify_eq.
Qed.

Lemma tier_log_same k lg :
  Forall (λ e, ex_tier e = k) lg → tier_log k lg = lg.
Proof.
  unfold tier_log. induction 1 as [|e lg He _ IH]; [done|].
  rewrite filter_cons_True by done. by rewrite IH.
Qed.

Lemma tier_log_other k j lg :
  k ≠ j → Forall (λ e, ex_tier e = j) lg → tier_log k lg = [].
Proof.
  unfold tier_log. intros Hne. induction 1 as [|e lg He _ IH]; [done|].
  rewrite filter_cons_False by congruence. done.
Qed.

(** The exchanges and the result list of one website, tier by tier. *)
Lemma search_website_inv t1 t2 t3 website lim w a :
  search_website google_search t1 t2 t3 website lim w = Some a →
  ∃ n1 n2 n3 added2 added3,
    log a = n1 ++ n2 ++ n3
    ∧ results a
      = take 40 (tag 1 (n1 ≫= reply_items) ++ added2 ++ added3)
    ∧ (Forall (λ e, ex_tier e = 1) n1
       ∧ Forall (λ e, ex_tier e = 2) n2
       ∧ Forall (λ e, ex_tier e = 3) n3)
    ∧ (length n1 ≤ 4 ∧ length n2 ≤ 8 ∧ length n3 ≤ 10)
    ∧ (short_last n1 ∧ short_last n2 ∧ short_last n3)
    ∧ fresh_in 2 (tag 1 (n1 ≫= reply_items)) added2
    ∧ fresh_in 3 (tag 1 (n1 ≫= reply_items) ++ added2) added3
    ∧ n1 ≠ []
    ∧ (active t2 = false → n2 = [])
    ∧ (active t3 = false → n3 = [])
    ∧ n1 = log (tier1_pages google_search website t1 (seq 0 4)
                  {| results := []; limitExceeded := lim;
                     log := []; world := w |}).
Proof.
  unfold search_website. intros H.
  destruct (tier1_pages_spec website t1 (seq 0 4)
              {| results := []; limitExceeded := lim;
                 log := []; world := w |})
    as (n1 & Hlog1 & Hres1 & Htier1 & Hlen1 & Hlast1 & Hne1).
  cbn [log results app] in Hlog1, Hres1. rewrite length_seq in Hlen1.
  destruct (search_tier _ 2 _ _ _ _) as [a2|] eqn:H2; [|done].
  cbn [mbind option_bind] in H.
  destruct (search_tier _ 3 _ _ _ _) as [a3|] eqn:H3; [|done].
  cbn [mbind option_bind] in H.
  apply (inj Some) in H. subst a.
  apply search_tier_spec in H2
    as (n2 & added2 & Hlog2 & Hres2 & Htier2 & Hlen2 & Hlast2 & Hfresh2 & Hoff2).
  apply search_tier_spec in H3
    as (n3 & added3 & Hlog3 & Hres3 & Htier3 & Hlen3 & Hlast3 & Hfresh3 & Hoff3).
  rewrite Hres2, Hres1 in Hfresh3. rewrite Hres1 in Hfresh2.
  exists n1, n2, n3, added2, added3. cbn [log results].
  rewrite Hlog3, Hlog2, Hlog1, Hres3, Hres2, Hres1.
  rewrite <- !(assoc_L (++)).
  repeat split; try done. by apply Hne1.
Qed.

Lemma tier_log_split n1 n2 n3 :
  Forall (λ e, ex_tier e = 1) n1 →
  Forall (λ e, ex_tier e = 2) n2 →
  Forall (λ e, ex_tier e = 3) n3 →
  tier_log 1 (n1 ++ n2 ++ n3) = n1
  ∧ tier_log 2 (n1 ++ n2 ++ n3) = n2
  ∧ tier_log 3 (n1 ++ n2 ++ n3) = n3
  ∧ (∀ k, k ≠ 1 → k ≠ 2 → k ≠ 3 → tier_log k (n1 ++ n2 ++ n3) = []).
Proof.
  intros H1 H2 H3.
  assert (∀ k, tier_log k (n1 ++ n2 ++ n3)
               = tier_log k n1 ++ tier_log k n2 ++ tier_log k n3) as Hsplit.
  { intros k. unfold tier_log. by rewrite !filter_app. }
  rewrite !Hsplit. repeat split.
  - rewrite (tier_log_same 1 n1), (tier_log_other 1 2 n2),
      (tier_log_other 1 3 n3) by done. by rewrite app_nil_r.
  - by rewrite (tier_log_other 2 1 n1), (tier_log_same 2 n2),
      (tier_log_other 2 3 n3), app_nil_r by done.
  - by rewrite (tier_log_other 3 1 n1), (tier_log_other 3 2 n2),
      (tier_log_same 3 n3) by done.
  - intros k ???. rewrite Hsplit.
    by rewrite (tier_log_other k 1 n1), (tier_log_other k 2 n2),
      (tier_log_other k 3 n3) by done.
Qed.

Lemma search_website_length t1 t2 t3 website lim w a :
  search_website google_search t1 t2 t3 website lim w = Some a →
  length (results a) ≤ 40.
Proof.
  intros (n1 & n2 & n3 & added2 & added3 & _ & -> & _)%search_website_inv.
  rewrite length_take. lia.
Qed.

(** Every list of a session's [results] dict was produced by the loop
    body for that website. *)
Lemma search_websites_entry t1 t2 t3 websites s s' website l :
  search_websites google_search t1 t2 t3 websites s = Some s' →
  s_results s' !! website = Some l →
  s_results s !! website = Some l
  ∨ ∃ lim w a,
      search_website google_search t1 t2 t3 website lim w = Some a
      ∧ results a = l.
Proof.
  revert s. induction websites as [|site rest IH]; intros s H Hl; simpl in H.
  { simplify_eq. by left. }
  destruct (nonempty site); [|by eapply IH].
  destruct (search_website _ _ _ _ _ _ _) as [a|] eqn:Ha; [|done].
  cbn [mbind option_bind] in H.
  destruct (IH _ H Hl) as [Hold|Hnew]; [|by right].
  cbn [s_results] in Hold.
  destruct (decide (site = website)) as [->|Hne].
  - rewrite lookup_insert_eq in Hold. simplify_eq. right. eauto.
  - rewrite lookup_insert_ne in Hold by done. by left.
Qed.

Lemma search_button_entry t1 t2 t3 websites w s website l :
  search_button google_search t1 t2 t3 websites w = Some s →
  s_results s !! website = Some l →
  ∃ lim w' a,
    search_website google_search t1 t2 t3 website lim w' = Some a
    ∧ results a = l.
Proof.
  unfold search_button. intros H Hl.
  destruct (search_websites_entry _ _ _ _ _ _ _ _ H Hl) as [Hold|Hnew];
    [|done].
  cbn [s_results] in Hold. by rewrite lookup_empty in Hold.
Qed.

(** C5: after a run of the search, the result list stored for any
    website has at most 40 items, whatever the service returned. *)
Theorem results_capped_at_40 t1 t2 t3 websites w s website l :
  search_button google_search t1 t2 t3 websites w = Some s →
  s_results s !! website = Some l →
  length l ≤ 40.
Proof.
  intros H Hl.
  destruct (search_button_entry _ _ _ _ _ _ _ _ H Hl)
    as (lim & w' & a & Ha & <-).
  by eapply search_website_length.
Qed.

(** C4: when a link came in with a tier 1 page, every item of the final
    list that carries this link has priority 1, whether or not a page of
    tier 2 or 3 returned the link again. *)
Theorem first_tier_wins t1 t2 t3 website lim w a e r it lk y :
  search_website google_search t1 t2 t3 website lim w = Some a →
  e ∈ log a → ex_tier e = 1 → ex_reply e = Some r →
  it ∈ get_items r → it !! "link" = Some lk →
  y ∈ results a → y !! "link" = Some lk →
  y !! "priority" = Some (VInt 1).
Proof.
  intros (n1 & n2 & n3 & added2 & added3 & Hlog & Hres & (T1 & T2 & T3)
          & _ & _ & Hfresh2 & Hfresh3 & _)%search_website_inv
    He Htier Hreply Hit Hlk Hy Hylk.
  assert (e ∈ n1) as He1.
  { rewrite Hlog, !elem_of_app in He. destruct He as [?|[He|He]]; [done|..].
    - rewrite Forall_forall in T2. apply T2 in He. congruence.
    - rewrite Forall_forall in T3. apply T3 in He. congruence. }
  assert (lk ∈ link_values (tag 1 (n1 ≫= reply_items))) as Hseen.
  { rewrite link_values_tag. apply elem_of_link_values.
    exists it. split; [|done]. apply list_elem_of_bind.
    exists e. split; [|done]. unfold reply_items. by rewrite Hreply. }
  rewrite Hres in Hy. apply subseteq_take in Hy.
  rewrite !elem_of_app in Hy. destruct Hy as [Hy|[Hy|Hy]].
  - apply list_elem_of_fmap in Hy as (x & -> & _). apply lookup_insert_eq.
  - unfold fresh_in in Hfresh2. rewrite Forall_forall in Hfresh2.
    destruct (Hfresh2 y Hy) as (_ & lk' & Hlk' & Hnew).
    assert (lk' = lk) as -> by congruence. done.
  - unfold fresh_in in Hfresh3. rewrite Forall_forall in Hfresh3.
    destruct (Hfresh3 y Hy) as (_ & lk' & Hlk' & Hnew).
    assert (lk' = lk) as -> by congruence.
    destruct Hnew. rewrite link_values_app. apply elem_of_app. by left.
Qed.

(** C1 (amended): when no page returned by the service repeats a link
    and the pages of tier 1 share no link, the links of the final list
    are pairwise distinct. *)
Theorem links_distinct_when_pages_distinct t1 t2 t3 website lim w a :
  search_website google_search t1 t2 t3 website lim w = Some a →
  NoDup (link_values (tier_log 1 (log a) ≫= reply_items)) →
  (∀ e, e ∈ log a → NoDup (link_values (reply_items e))) →
  NoDup (link_values (results a)).
Proof.
  intros H Htier1 Hpages.
  destruct (search_website_inv _ _ _ _ _ _ _ H)
    as (n1 & n2 & n3 & added2 & added3 & Hlog & _ & (T1 & T2 & T3)
        & _ & _ & _ & _ & _ & _ & _ & Hn1).
  destruct (tier_log_split _ _ _ T1 T2 T3) as (L1 & _).
  rewrite Hlog, L1 in Htier1.
  unfold search_website in H.
  destruct (tier1_pages_spec website t1 (seq 0 4)
              {| results := []; limitExceeded := lim;
                 log := []; world := w |})
    as (n1' & Hlog1 & Hres1 & _).
  cbn [log results app] in Hlog1, Hres1.
  rewrite <- Hn1 in Hlog1. subst n1'.
  destruct (search_tier _ 2 _ _ _ _) as [a2|] eqn:H2; [|done].
  cbn [mbind option_bind] in H.
  destruct (search_tier _ 3 _ _ _ _) as [a3|] eqn:H3; [|done].
  cbn [mbind option_bind] in H.
  apply (inj Some) in H. subst a. cbn [log results] in *.
  destruct (search_tier_spec _ _ _ _ _ _ H3) as (n3' & _ & Hlog3 & _).
  apply (sublist_NoDup _ (link_values (results a3)));
    [|apply sublist_link_values, sublist_take].
  eapply search_tier_nodup; [exact H3|done|].
  eapply search_tier_nodup; [exact H2| |].
  - intros e He. apply Hpages. rewrite Hlog3. apply elem_of_app. by left.
  - rewrite Hres1. by rewrite link_values_tag.
Qed.

(** C2 (amended): a tier 2 or tier 3 whose four term fields are empty is
    sent no request, also when the count is below 40; tier 1 has no such
    guard and is always sent at least one request. *)
Theorem later_tiers_without_terms_not_queried t1 t2 t3 website lim w a :
  search_website google_search t1 t2 t3 website lim w = Some a →
  (active t2 = false → tier_log 2 (log a) = [])
  ∧ (active t3 = false → tier_log 3 (log a) = [])
  ∧ tier_log 1 (log a) ≠ [].
Proof.
  intros (n1 & n2 & n3 & added2 & added3 & Hlog & _ & (T1 & T2 & T3)
          & _ & _ & _ & _ & Hne1 & Hoff2 & Hoff3 & _)%search_website_inv.
  destruct (tier_log_split _ _ _ T1 T2 T3) as (L1 & L2 & L3 & _).
  rewrite Hlog, L1, L2, L3. auto.
Qed.

Lemma stop_paging_full res r :
  length res < 40 → length (get_items r) = 10 → stop_paging res r = false.
Proof.
  unfold stop_paging. intros Hres Hr. apply orb_false_intro.
  - by apply Nat.leb_gt.
  - apply Nat.ltb_ge. lia.
Qed.

Lemma stop_paging_short res r :
  length (get_items r) < 10 → stop_paging res r = true.
Proof.
  unfold stop_paging. intros Hr. apply orb_true_intro. right.
  by apply Nat.ltb_lt.
Qed.

Lemma length_tag p its : length (tag p its) = length its.
Proof. unfold tag. apply length_fmap. Qed.

(** C6: per website, tier 1 sends at most 4 requests, tier 2 at most 8
    and tier 3 at most 10; within a tier no request follows a page of
    fewer than 10 raw items; and when the first two pages of tier 1 have
    10 raw items and the third has fewer, tier 1 sends exactly 3. *)
Theorem page_loop_budget_and_early_stop t1 t2 t3 website lim w a :
  search_website google_search t1 t2 t3 website lim w = Some a →
  (length (tier_log 1 (log a)) ≤ 4
   ∧ length (tier_log 2 (log a)) ≤ 8
   ∧ length (tier_log 3 (log a)) ≤ 10)
  ∧ (∀ k, short_last (tier_log k (log a)))
  ∧ (∀ r0 w1 r1 w2 r2 w3,
       google_search 0 website t1 w = (Some r0, w1) →
       length (get_items r0) = 10 →
       google_search 1 website t1 w1 = (Some r1, w2) →
       length (get_items r1) = 10 →
       google_search 2 website t1 w2 = (Some r2, w3) →
       length (get_items r2) < 10 →
       length (tier_log 1 (log a)) = 3).
Proof.
  intros (n1 & n2 & n3 & added2 & added3 & Hlog & _ & (T1 & T2 & T3)
          & (B1 & B2 & B3) & (S1 & S2 & S3) & _ & _ & _ & _ & _
          & Hn1)%search_website_inv.
  destruct (tier_log_split _ _ _ T1 T2 T3) as (L1 & L2 & L3 & Lk).
  rewrite Hlog, L1, L2, L3. split; [done|]. split.
  - intros k.
    destruct (decide (k = 1)) as [->|?]; [by rewrite L1|].
    destruct (decide (k = 2)) as [->|?]; [by rewrite L2|].
    destruct (decide (k = 3)) as [->|?]; [by rewrite L3|].
    rewrite Lk by done. by intros i e ?.
  - intros r0 w1 r1 w2 r2 w3 G0 Hr0 G1 Hr1 G2 Hr2.
    rewrite Hn1. cbn [seq tier1_pages world results log app].
    rewrite G0. cbn [world results log app].
    rewrite stop_paging_full by (rewrite ?length_tag; lia).
    rewrite G1. cbn [world results log app].
    rewrite stop_paging_full by (rewrite ?length_app, ?length_tag; lia).
    rewrite G2. cbn [world results log app].
    rewrite stop_paging_short by done. done.
Qed.

(** ** No [KeyError] when every returned item has a link *)

Lemma tag_has_link p its :
  Forall has_link its → Forall has_link (tag p its).
Proof.
  unfold tag. intros H. apply Forall_fmap. eapply Forall_impl; [exact H|].
  intros it Hit. unfold has_link. simpl. by rewrite lookup_insert_ne.
Qed.

Lemma links_is_Some acc : Forall has_link acc → is_Some (links acc).
Proof. intros H. by apply mapM_is_Some. Qed.

Lemma new_items_total acc its :
  Forall has_link acc → Forall has_link its →
  ∃ new, new_items acc its = Some new ∧ Forall has_link new.
Proof.
  intros [seen Hseen]%links_is_Some.
  induction 1 as [|it its [lk Hlk] _ (tl & Htl & IH)]; simpl.
  { by exists []. }
  rewrite Hlk, Hseen, Htl. simpl. eexists. split; [done|].
  case_decide; [done|]. constructor; [by exists lk|done].
Qed.

Section Completes.
Hypothesis replies_have_links : ∀ page site t w r w',
  google_search page site t w = (Some r, w') →
  Forall has_link (get_items r).

Lemma tier1_pages_links website t pages a :
  Forall has_link (results a) →
  Forall has_link (results (tier1_pages google_search website t pages a)).
Proof.
  revert a. induction pages as [|page rest IH]; intros a Ha; [done|].
  simpl.
  destruct (google_search page website t (world a)) as [[r|] w'] eqn:G;
    [|done].
  assert (Forall has_link (results a ++ tag 1 (get_items r))) as Ha'.
  { apply Forall_app. split; [done|].
    apply tag_has_link. by eapply replies_have_links. }
  destruct (stop_paging _ r); [done|]. by apply IH.
Qed.

Lemma dedup_pages_total k website t pages a :
  Forall has_link (results a) →
  ∃ a', dedup_pages google_search k website t pages a = Some a'
        ∧ Forall has_link (results a').
Proof.
  revert a. induction pages as [|page rest IH]; intros a Ha; simpl.
  { by exists a. }
  destruct (google_search page website t (world a)) as [[r|] w'] eqn:G;
    [|by eexists].
  destruct (new_items_total (results a) (tag (Z.of_nat k) (get_items r)))
    as (new & -> & Hnew); [done| |].
  { apply tag_has_link. by eapply replies_have_links. }
  simpl.
  assert (Forall has_link (results a ++ new)) as Ha'.
  { by apply Forall_app. }
  destruct (stop_paging _ r); [by eexists|]. by apply IH.
Qed.

Lemma search_tier_total k website t budget a :
  Forall has_link (results a) →
  ∃ a', search_tier google_search k website t budget a = Some a'
        ∧ Forall has_link (results a').
Proof.
  intros Ha. unfold search_tier. destruct (tier_guard a t).
  - by apply dedup_pages_total.
  - by exists a.
Qed.

(** The loop body for one website runs to its end. *)
Lemma search_website_completes t1 t2 t3 website lim w :
  is_Some (search_website google_search t1 t2 t3 website lim w).
Proof.
  unfold search_website.
  destruct (search_tier_total 2 website t2 8
              (tier1_pages google_search website t1 (seq 0 4)
                 {| results := []; limitExceeded := lim;
                    log := []; world := w |}))
    as (a2 & -> & Ha2).
  { apply tier1_pages_links. constructor. }
  cbn [mbind option_bind].
  destruct (search_tier_total 3 website t3 10 a2 Ha2) as (a3 & -> & _).
  by eexists.
Qed.

(** X23: when every item the service returns has a [link], the whole
    search runs to its end: no [KeyError] is raised. *)
Lemma search_button_completes t1 t2 t3 websites w :
  is_Some (search_button google_search t1 t2 t3 websites w).
Proof.
  unfold search_button. generalize ({| s_results := ∅; s_limit := false;
                                       s_world := w |}).
  induction websites as [|site rest IH]; intros s; simpl; [by eexists|].
  destruct (nonempty site); [|done].
  destruct (search_website_completes t1 t2 t3 site (s_limit s) (s_world s))
    as [a ->].
  apply IH.
Qed.
End Completes.

End AccumulatorFacts.

(** * Facts about the batch upsert *)

Section UpsertFacts.
Import DirectAirtableIntegration.

Context {Tbl Rec Obs : Type}.
Variable table_all : value → Tbl → option (list Rec) * Tbl.
Variable table_create : UpsertRecord → Tbl → bool * Tbl.
Variable urlparse_netloc : string → option string.
Variable today : string.

Local Abbreviation Run := (@Run Tbl Obs).
Local Abbreviation write_item :=
  (@write_item Tbl Obs table_create urlparse_netloc today).
Local Abbreviation process_item :=
  (@process_item Tbl Rec Obs table_all table_create urlparse_netloc today).
Local Abbreviation process_from :=
  (@process_from Tbl Rec Obs table_all table_create urlparse_netloc today).
Local Abbreviation save_results :=
  (@save_results Tbl Rec Obs table_all table_create urlparse_netloc today).
Local Abbreviation record_of :=
  (λ e : Entry, normalize_record urlparse_netloc today e.1.1 e.1.2 e.2).

(** Reduces the loop state after a branch was chosen. *)
Ltac run_state :=
  cbn [fst snd negb stats events store observer escaped
       counted logged stored].

(** Splits the goal along every branch the loop body can take: the link,
    the lookup, the creation, and every invocation of the callback. *)
Ltac item_cases e check cb :=
  unfold DirectAirtableIntegration.process_item,
         DirectAirtableIntegration.write_item,
         DirectAirtableIntegration.handle_exception,
         DirectAirtableIntegration.notify;
  destruct e as [[? ?] ?];
  destruct (truthy _) eqn:?; run_state;
  [destruct check;
    [match goal with
     | |- context [table_all ?a ?b] =>
         destruct (table_all a b) as [[[|? ?]|] ?] eqn:?
     end|]; run_state|];
  let f := fresh "f" in
  destruct cb as [f|]; run_state;
  repeat
    (first
       [match goal with
        | |- context [table_create ?a ?b] =>
            destruct (table_create a b) as [[|] ?] eqn:?
        end
       |match goal with
        | |- context [f ?n ?t ?c ?x ?o] =>
            destruct (f n t c x o) as [[|] ?] eqn:?
        end];
     run_state).

(** A callback that returns from every call did not raise in this one. *)
Ltac never_raised Hq :=
  match goal with
  | H : ?f ?n ?t ?c ?x ?o = (false, _) |- _ =>
      exfalso; pose proof (Hq f n t c x o eq_refl) as Hret;
      rewrite H in Hret; discriminate Hret
  end.

Lemma process_item_balanced check cb total idx e r :
  balanced (stats r) → balanced (stats (process_item check cb total idx e r)).
Proof. unfold balanced. item_cases e check cb; simpl; lia. Qed.

Lemma process_from_escaped check cb total idx work (r : Run) :
  escaped r = true → process_from check cb total idx work r = r.
Proof. intros Hr. destruct work; simpl; [done|]. by rewrite Hr. Qed.

Lemma process_from_balanced check cb total idx work r :
  balanced (stats r) →
  balanced (stats (process_from check cb total idx work r)).
Proof.
  revert idx r. induction work as [|e rest IH]; intros idx r Hr; simpl.
  - done.
  - destruct (escaped r); [done|]. by apply IH, process_item_balanced.
Qed.

Lemma length_all_items results search_queries dflt :
  length (all_items results search_queries dflt)
  = sum_list ((λ p : string * list item, length p.2) <$> results).
Proof.
  unfold all_items. induction results as [|[website items] rest IH]; [done|].
  rewrite bind_cons, length_app, length_fmap, IH. done.
Qed.

(** What one entry adds to the events and to the counters, whatever the
    callback does; and what it adds when the callback returns from every
    call. *)
Lemma process_item_effect check cb total idx e r :
  ∃ evs,
    events (process_item check cb total idx e r) = events r ++ evs
    ∧ (check = false → Forall (λ ev, is_lookup ev = false) evs)
    ∧ (check = false →
       filter is_store_request evs = filter is_create evs)
    ∧ creates evs `sublist_of`
        (if truthy (link_of e) then [record_of e] else [])
    ∧ (check = false →
       creates evs = if truthy (link_of e) then [record_of e] else [])
    ∧ lookups evs
      = (if check && truthy (link_of e) then [link_of e] else [])
    ∧ created (stats (process_item check cb total idx e r))
      = created (stats r) + length (sleeps evs)
    ∧ (returns_normally cb →
       escaped (process_item check cb total idx e r) = escaped r
       ∧ processed (stats (process_item check cb total idx e r))
         = S (processed (stats r))
       ∧ created (stats (process_item check cb total idx e r))
         + length (failed_writes evs)
         = created (stats r) + length (creates evs)
       ∧ errors (stats (process_item check cb total idx e r))
         = errors (stats r) + (if truthy (link_of e) then 0 else 1)
           + length (failed_writes evs)
       ∧ duplicates (stats (process_item check cb total idx e r))
         + length (creates evs)
         = duplicates (stats r) + (if truthy (link_of e) then 1 else 0)
       ∧ (check = false →
          duplicates (stats (process_item check cb total idx e r))
          = duplicates (stats r))
       ∧ callbacks evs
         = (if cb is Some _
            then if truthy (link_of e) then [idx + 1] else [] else [])
       ∧ Forall (reports (idx + 1) total
                   (stats (process_item check cb total idx e r))) evs).
Proof.
  item_cases e check cb; eexists;
    (split;
       [rewrite <- ?(assoc_L (++));
        first [reflexivity | symmetry; apply app_nil_r]|]).
  all: cbn [creates lookups sleeps failed_writes callbacks omap list_omap
            app length andb fst snd created errors duplicates processed
            count_created count_error count_duplicate stats filter].
  all: unfold link_of; cbn [fst snd].
  all: repeat match goal with H : truthy _ = _ |- _ => rewrite H end.
  all: (split; [intros; try discriminate; once (repeat constructor)|]).
  all: (split; [intros; try discriminate; reflexivity|]).
  all: (split; [first [reflexivity | apply sublist_nil_l
                      | apply sublist_skip; reflexivity]|]).
  all: (split; [intros; try discriminate; reflexivity|]).
  all: (split; [rewrite ?andb_false_r; reflexivity|]).
  all: (split; [cbn [length]; lia|]).
  all: intros Hq; try never_raised Hq.
  all: cbn [length]; repeat split; intros; try discriminate;
    try reflexivity; try lia.
  all: once (repeat constructor).
Qed.

Lemma linked_cons e work :
  linked (e :: work)
  = (if truthy (link_of e) then [e] else []) ++ linked work.
Proof.
  unfold linked. destruct (truthy (link_of e)) eqn:He.
  - by rewrite filter_cons_True.
  - rewrite filter_cons_False; [done|]. by rewrite He.
Qed.

Lemma unlinked_cons e work :
  unlinked (e :: work)
  = (if truthy (link_of e) then [] else [e]) ++ unlinked work.
Proof.
  unfold unlinked. destruct (truthy (link_of e)) eqn:He.
  - rewrite filter_cons_False; [done|]. by rewrite He.
  - by rewrite filter_cons_True.
Qed.

Lemma reports_sound n total st ev :
  reports n total st ev →
  1 ≤ n → n ≤ total → created st + errors st ≤ n →
  sound_progress total ev.
Proof.
  destruct ev; try done. simpl. intros (-> & -> & -> & ->). auto.
Qed.

(** What the loop adds to the events and to the counters from an entry
    index on: whatever the callback does, when no exception leaves the
    loop, and when the callback returns from every call. *)
Lemma process_from_effect check cb total idx work r :
  ∃ evs,
    events (process_from check cb total idx work r) = events r ++ evs
    ∧ (check = false → Forall (λ ev, is_lookup ev = false) evs)
    ∧ (check = false →
       filter is_store_request evs = filter is_create evs)
    ∧ creates evs `sublist_of` (record_of <$> linked work)
    ∧ created (stats (process_from check cb total idx work r))
      = created (stats r) + length (sleeps evs)
    ∧ (escaped (process_from check cb total idx work r) = false →
       (check = false → creates evs = record_of <$> linked work)
       ∧ lookups evs = (if check then link_of <$> linked work else []))
    ∧ (returns_normally cb → escaped r = false →
       processed (stats r) = idx → balanced (stats r) →
       idx + length work ≤ total →
       escaped (process_from check cb total idx work r) = false
       ∧ processed (stats (process_from check cb total idx work r))
         = idx + length work
       ∧ created (stats (process_from check cb total idx work r))
         + length (failed_writes evs)
         = created (stats r) + length (creates evs)
       ∧ errors (stats (process_from check cb total idx work r))
         = errors (stats r) + length (unlinked work)
           + length (failed_writes evs)
       ∧ duplicates (stats (process_from check cb total idx work r))
         + length (creates evs)
         = duplicates (stats r) + length (linked work)
       ∧ (check = false →
          duplicates (stats (process_from check cb total idx work r))
          = duplicates (stats r))
       ∧ callbacks evs = (if cb is Some _ then reported idx work else [])
       ∧ Forall (sound_progress total) evs).
Proof.
  revert idx r. induction work as [|e rest IH]; intros idx r.
  { exists []. simpl. rewrite app_nil_r.
    repeat split; try done; try lia; try constructor.
    - by destruct check.
    - by destruct cb. }
  cbn [DirectAirtableIntegration.process_from].
  destruct (escaped r) eqn:Hesc.
  { exists []. rewrite app_nil_r. cbn [creates sleeps omap list_omap length].
    split; [done|]. split; [constructor|]. split; [done|].
    split; [apply sublist_nil_l|]. split; [lia|].
    split; [by rewrite Hesc|]. intros _ Hr. discriminate Hr. }
  destruct (process_item_effect check cb total idx e r)
    as (evs1 & Hevs1 & Hlk1 & Hst1 & Hsub1 & Hall1 & Hlook1 & Hsl1 & Hq1).
  pose proof (process_item_balanced check cb total idx e r) as Hbal1.
  set (r1 := process_item check cb total idx e r) in *.
  destruct (IH (S idx) r1)
    as (evs2 & Hevs2 & Hlk2 & Hst2 & Hsub2 & Hsl2 & Hret2 & Hq2).
  exists (evs1 ++ evs2).
  rewrite Hevs2, Hevs1, <- (assoc_L (++)).
  rewrite linked_cons, unlinked_cons, fmap_app, !length_app.
  unfold creates, lookups, sleeps, failed_writes, callbacks in *.
  rewrite !omap_app, !length_app.
  split; [done|]. split.
  { intros Hc. apply Forall_app. auto. }
  split.
  { intros Hc. rewrite !filter_app, Hst1, Hst2 by done. done. }
  split.
  { apply sublist_app; [|done]. by destruct (truthy (link_of e)). }
  split; [lia|]. split.
  { intros Hret. destruct (Hret2 Hret) as [Hall2 Hlook2]. split.
    - intros Hc. rewrite Hall1, Hall2 by done.
      by destruct (truthy (link_of e)).
    - rewrite Hlook1, Hlook2. destruct check; [|done].
      by destruct (truthy (link_of e)). }
  intros Hq _ Hidx Hbal Hlen. cbn [length] in Hlen.
  destruct (Hq1 Hq) as (Hesc1 & Hproc1 & Hcr1 & Her1 & Hdu1 & Hnd1 & Hcb1
                        & Hrep1).
  destruct (Hq2 Hq) as (Hesc2 & Hproc2 & Hcr2 & Her2 & Hdu2 & Hnd2 & Hcb2
                        & Hrep2);
    [congruence|lia|by apply Hbal1|lia|].
  specialize (Hbal1 Hbal). unfold balanced in Hbal1.
  split; [done|]. split; [cbn [length]; lia|]. split; [lia|]. split.
  { rewrite Her2, Her1. destruct (truthy (link_of e)); simpl; lia. }
  split.
  { destruct (truthy (link_of e)); simpl in *; lia. }
  split.
  { intros Hc. rewrite Hnd2, Hnd1 by done. done. }
  split.
  { rewrite Hcb1, Hcb2. by destruct cb. }
  apply Forall_app. split; [|done].
  eapply Forall_impl; [exact Hrep1|]. intros ev Hev.
  eapply reports_sound; [exact Hev|lia|lia|]. lia.
Qed.

(** The effect of a whole batch. *)
Lemma save_results_effect results search_queries dflt check cb s o :
  ∃ work,
    work = all_items results (default ∅ search_queries) dflt
    ∧ (check = false →
       Forall (λ ev, is_lookup ev = false)
         (events (save_results results search_queries dflt check cb s o)))
    ∧ (check = false →
       filter is_store_request
         (events (save_results results search_queries dflt check cb s o))
       = filter is_create
           (events (save_results results search_queries dflt check cb s o)))
    ∧ creates (events (save_results results search_queries dflt check cb s o))
        `sublist_of` (record_of <$> linked work)
    ∧ created (stats (save_results results search_queries dflt check cb s o))
      = length (sleeps
          (events (save_results results search_queries dflt check cb s o)))
    ∧ (escaped (save_results results search_queries dflt check cb s o) = false →
       (check = false →
        creates (events (save_results results search_queries dflt check cb s o))
        = record_of <$> linked work)
       ∧ lookups
           (events (save_results results search_queries dflt check cb s o))
         = (if check then link_of <$> linked work else []))
    ∧ (returns_normally cb →
       escaped (save_results results search_queries dflt check cb s o) = false
       ∧ processed
           (stats (save_results results search_queries dflt check cb s o))
         = length work
       ∧ created (stats (save_results results search_queries dflt check cb s o))
         + length (failed_writes
             (events (save_results results search_queries dflt check cb s o)))
         = length (creates
             (events (save_results results search_queries dflt check cb s o)))
       ∧ errors (stats (save_results results search_queries dflt check cb s o))
         = length (unlinked work)
           + length (failed_writes
               (events (save_results results search_queries dflt check cb s o)))
       ∧ duplicates
           (stats (save_results results search_queries dflt check cb s o))
         + length (creates
             (events (save_results results search_queries dflt check cb s o)))
         = length (linked work)
       ∧ (check = false →
          duplicates
            (stats (save_results results search_queries dflt check cb s o))
          = 0)
       ∧ callbacks
           (events (save_results results search_queries dflt check cb s o))
         = (if cb is Some _ then reported 0 work else [])
       ∧ Forall (sound_progress (length work))
           (events (save_results results search_queries dflt check cb s o))).
Proof.
  unfold DirectAirtableIntegration.save_results.
  set (work := all_items _ _ _).
  set (r0 := {| stats := _; events := []; store := s; observer := o;
                escaped := false |}).
  destruct (process_from_effect check cb (length work) 0 work r0)
    as (evs & Hevs & Hlk & Hst & Hsub & Hsl & Hret & Hq).
  exists work. rewrite Hevs. cbn [events app stats r0 created] in *.
  split; [done|]. split; [done|]. split; [done|]. split; [done|].
  split; [done|]. split; [done|].
  intros Hcb. apply (Hq Hcb); [reflexivity..|lia].
Qed.

(** X25: when the callback returns from every call (or none is passed),
    [save_results] returns, and the [processed] counter it returns is the
    number of items of the input, summed over the websites. *)
Theorem processed_counts_when_callback_returns
    results search_queries dflt check cb s o :
  returns_normally cb →
  escaped (save_results results search_queries dflt check cb s o) = false
  ∧ processed (stats (save_results results search_queries dflt check cb s o))
    = sum_list ((λ p : string * list item, length p.2) <$> results).
Proof.
  intros Hq.
  destruct (save_results_effect results search_queries dflt check cb s o)
    as (work & -> & _ & _ & _ & _ & _ & Hquiet).
  destruct (Hquiet Hq) as (Hesc & Hproc & _).
  split; [exact Hesc|]. rewrite Hproc. apply length_all_items.
Qed.

(** C10: in the counters of [save_results], created + duplicates + errors
    equals processed, whatever the table and the callback do. *)
Theorem stats_buckets_sum_to_processed
    results search_queries dflt check cb s o :
  created (stats (save_results results search_queries dflt check cb s o))
  + duplicates (stats (save_results results search_queries dflt check cb s o))
  + errors (stats (save_results results search_queries dflt check cb s o))
  = processed (stats (save_results results search_queries dflt check cb s o)).
Proof.
  unfold DirectAirtableIntegration.save_results.
  set (work := all_items _ _ _).
  set (r0 := {| stats := _; events := []; store := s; observer := o;
                escaped := false |}).
  exact (process_from_balanced check cb (length work) 0 work r0 eq_refl).
Qed.

(** C8: with [check_duplicates=False] the batch sends no lookup to the
    table; every request it sends is a record creation. *)
Theorem no_lookup_without_check_duplicates
    results search_queries dflt cb s o :
  Forall (λ ev, is_lookup ev = false)
    (events (save_results results search_queries dflt false cb s o))
  ∧ filter is_store_request
      (events (save_results results search_queries dflt false cb s o))
    = filter is_create
        (events (save_results results search_queries dflt false cb s o)).
Proof.
  destruct (save_results_effect results search_queries dflt false cb s o)
    as (work & _ & Hlk & Hst & _).
  split; [by apply Hlk|by apply Hst].
Qed.

(** C9: when the duplicate lookup of an entry raises, the entry is handled
    as one without a duplicate: the record is created right after the
    warning, [duplicates] stays, [errors] grows only if the creation
    itself fails (or the callback invoked after a successful creation
    raises), and the loop goes on with the next entry. *)
Theorem lookup_failure_falls_through cb total idx it query prio r s' rest :
  truthy (link_of (it, query, prio)) = true →
  table_all (link_of (it, query, prio)) (store r) = (None, s') →
  escaped r = false →
  process_item true cb total idx (it, query, prio) r
  = write_item cb total idx (it, query, prio)
      (logged [WarnLookup (link_of (it, query, prio))]
         (logged [Lookup (link_of (it, query, prio))] (stored s' r)))
  ∧ (∃ tail,
       events (process_item true cb total idx (it, query, prio) r)
       = events r
         ++ [Lookup (link_of (it, query, prio));
             WarnLookup (link_of (it, query, prio));
             Create (normalize_record urlparse_netloc today it query prio)]
         ++ tail)
  ∧ duplicates (stats (process_item true cb total idx (it, query, prio) r))
    = duplicates (stats r)
  ∧ (if (table_create
           (normalize_record urlparse_netloc today it query prio) s').1
     then created (stats (process_item true cb total idx (it, query, prio) r))
          = S (created (stats r))
          ∧ errors (stats (process_item true cb total idx (it, query, prio) r))
            = errors (stats r)
              + (if callback_returns cb total idx (count_created (stats r))
                      (observer r)
                 then 0 else 1)
     else created (stats (process_item true cb total idx (it, query, prio) r))
          = created (stats r)
          ∧ errors (stats (process_item true cb total idx (it, query, prio) r))
            = S (errors (stats r)))
  ∧ process_from true cb total idx ((it, query, prio) :: rest) r
    = process_from true cb total (S idx) rest
        (process_item true cb total idx (it, query, prio) r).
Proof.
  intros Hlink Hraise Hesc.
  match goal with |- ?step = ?write ∧ _ =>
    assert (step = write) as Hstep
  end.
  { unfold DirectAirtableIntegration.process_item.
    rewrite Hlink, Hraise. reflexivity. }
  split; [exact Hstep|].
  split; [|split; [|split]].
  4: { cbn [DirectAirtableIntegration.process_from]. rewrite Hesc.
       reflexivity. }
  all: rewrite Hstep;
    unfold DirectAirtableIntegration.write_item,
           DirectAirtableIntegration.handle_exception,
           DirectAirtableIntegration.notify, callback_returns;
    run_state;
    destruct (table_create _ s') as [[|] s'']; destruct cb as [f|]; run_state;
    repeat (match goal with
            | |- context [f ?n ?t ?c ?x ?o] =>
                destruct (f n t c x o) as [[|] ?]
            end; run_state);
    cbn [count_created count_error created errors duplicates];
    rewrite <- ?(assoc_L (++)); cbn [app]; eauto; lia.
Qed.

(** X13: a record is handed to [create] only for items with a non-empty
    link; the records are those of the input items, in input order and
    at most one per item; without the duplicate check, a call that
    returns has handed over exactly one per item with a link. *)
Theorem writes_follow_input results search_queries dflt check cb s o :
  creates (events (save_results results search_queries dflt check cb s o))
    `sublist_of`
    (record_of <$> linked (all_items results (default ∅ search_queries) dflt))
  ∧ (escaped (save_results results search_queries dflt false cb s o) = false →
     creates (events (save_results results search_queries dflt false cb s o))
     = record_of
         <$> linked (all_items results (default ∅ search_queries) dflt))
  ∧ Forall (λ record, truthy (link record) = true)
      (creates
         (events (save_results results search_queries dflt check cb s o))).
Proof.
  destruct (save_results_effect results search_queries dflt check cb s o)
    as (work & -> & _ & _ & Hsub & _).
  destruct (save_results_effect results search_queries dflt false cb s o)
    as (work & -> & _ & _ & _ & _ & Hret & _).
  split; [done|]. split.
  { intros Hesc. by apply (Hret Hesc). }
  apply Forall_forall. intros record Hrec%(sublist_subseteq _ _ Hsub).
  apply list_elem_of_fmap in Hrec as (e & -> & He).
  by apply list_elem_of_filter in He as [He _].
Qed.

(** X14: with the duplicate check, a call that returns has asked the
    table once for every item with a non-empty link, in input order, and
    for no other item. *)
Theorem lookups_follow_input results search_queries dflt cb s o :
  escaped (save_results results search_queries dflt true cb s o) = false →
  lookups (events (save_results results search_queries dflt true cb s o))
  = link_of <$> linked (all_items results (default ∅ search_queries) dflt).
Proof.
  intros Hesc.
  destruct (save_results_effect results search_queries dflt true cb s o)
    as (work & -> & _ & _ & _ & _ & Hret & _).
  exact (proj2 (Hret Hesc)).
Qed.

(** X15: when the callback returns from every call, the counters account
    for what was done: [created] is the number of pauses, every record
    handed to [create] is either counted as created or logged as failed,
    [errors] counts the items without a link and the failed writes, and
    every item with a link was either counted as a duplicate or handed to
    [create]. *)
Theorem stats_account_for_events results search_queries dflt check cb s o :
  returns_normally cb →
  created (stats (save_results results search_queries dflt check cb s o))
  = length (sleeps
      (events (save_results results search_queries dflt check cb s o)))
  ∧ created (stats (save_results results search_queries dflt check cb s o))
    + length (failed_writes
        (events (save_results results search_queries dflt check cb s o)))
    = length (creates
        (events (save_results results search_queries dflt check cb s o)))
  ∧ errors (stats (save_results results search_queries dflt check cb s o))
    = length (unlinked
        (all_items results (default ∅ search_queries) dflt))
      + length (failed_writes
          (events (save_results results search_queries dflt check cb s o)))
  ∧ duplicates (stats (save_results results search_queries dflt check cb s o))
    + length (creates
        (events (save_results results search_queries dflt check cb s o)))
    = length (linked (all_items results (default ∅ search_queries) dflt)).
Proof.
  intros Hq.
  destruct (save_results_effect results search_queries dflt check cb s o)
    as (work & -> & _ & _ & _ & Hsl & _ & Hquiet).
  destruct (Hquiet Hq) as (_ & _ & Hcr & Her & Hdu & _).
  done.
Qed.

Lemma reported_all_linked idx work :
  Forall (λ e, truthy (link_of e) = true) work →
  reported idx work = seq (S idx) (length work).
Proof.
  intros H. revert idx. induction H as [|e rest He _ IH]; intros idx; simpl.
  - done.
  - rewrite He, IH. simpl. f_equal. lia.
Qed.

Lemma reported_sorted idx work :
  StronglySorted lt (reported idx work)
  ∧ Forall (λ n, idx < n) (reported idx work).
Proof.
  revert idx. induction work as [|e rest IH]; intros idx; simpl.
  { split; constructor. }
  destruct (IH (S idx)) as [Hsorted Hbound].
  assert (Forall (λ n, idx + 1 < n) (reported (S idx) rest)) as Hnext.
  { eapply Forall_impl; [exact Hbound|]. intros n ?. simpl in *. lia. }
  destruct (truthy (link_of e)); simpl.
  - split; constructor; try done; try lia.
    eapply Forall_impl; [exact Hbound|]. intros n ?. simpl in *. lia.
  - split; [done|].
    eapply Forall_impl; [exact Hbound|]. intros n ?. simpl in *. lia.
Qed.

(** X16: when the callback returns from every call, every invocation
    reports the size of the batch as total, a position between 1 and that
    total, and counts of created records and errors that together do not
    exceed the position; the positions reported grow strictly from one
    invocation to the next. *)
Theorem progress_reports_sound results search_queries dflt check cb s o :
  returns_normally cb →
  Forall (sound_progress
            (length (all_items results (default ∅ search_queries) dflt)))
    (events (save_results results search_queries dflt check cb s o))
  ∧ StronglySorted lt
      (callbacks
         (events (save_results results search_queries dflt check cb s o))).
Proof.
  intros Hq.
  destruct (save_results_effect results search_queries dflt check cb s o)
    as (work & -> & _ & _ & _ & _ & _ & Hquiet).
  destruct (Hquiet Hq) as (_ & _ & _ & _ & _ & _ & Hcb & Hsound).
  split; [done|]. rewrite Hcb.
  destruct cb; [apply reported_sorted|constructor].
Qed.

(** X24: when no entry has an empty link and the callback returns from
    every call, it is invoked once per entry, with 1, 2, ..., in the
    order of the input. *)
Theorem callbacks_once_per_linked_item
    results search_queries dflt check f s o :
  returns_normally (Some f) →
  Forall (λ e, truthy (link_of e) = true)
    (all_items results (default ∅ search_queries) dflt) →
  callbacks
    (events (save_results results search_queries dflt check (Some f) s o))
  = seq 1 (length (all_items results (default ∅ search_queries) dflt)).
Proof.
  intros Hq Hlinked.
  destruct (save_results_effect results search_queries dflt check (Some f) s o)
    as (work & -> & _ & _ & _ & _ & _ & Hquiet).
  destruct (Hquiet Hq) as (_ & _ & _ & _ & _ & _ & Hcb & _).
  rewrite Hcb. by apply reported_all_linked.
Qed.

(** What the loop does from an entry index on when the callback raises
    from every call. *)
Lemma process_from_callback_raises check f total idx work r :
  (∀ n t c x o, (f n t c x o).1 = false) →
  escaped r = false →
  ∃ evs,
    events (process_from check (Some f) total idx work r) = events r ++ evs
    ∧ creates evs = take 1 (record_of <$> linked work)
    ∧ escaped (process_from check (Some f) total idx work r)
      = (if linked work is [] then false else true).
Proof.
  intros Hf. revert idx r.
  induction work as [|e rest IH]; intros idx r Hesc.
  { exists []. simpl. by rewrite app_nil_r. }
  cbn [DirectAirtableIntegration.process_from]. rewrite Hesc, linked_cons.
  destruct (truthy (link_of e)) eqn:He; cbn [app].
  - assert (∃ evs,
              events (process_item check (Some f) total idx e r)
              = events r ++ evs
              ∧ creates evs = [record_of e]
              ∧ escaped (process_item check (Some f) total idx e r) = true)
      as (evs & Hevs & Hcr & Hout).
    { clear IH. remember (Some f) as cb eqn:Hcb. revert He.
      item_cases e check cb; intros He; try discriminate He;
        try discriminate Hcb; apply (inj Some) in Hcb; subst;
        repeat match goal with
               | H : f ?n ?t ?c ?x ?o = (true, _) |- _ =>
                   exfalso; pose proof (Hf n t c x o) as Hret;
                   rewrite H in Hret; discriminate Hret
               end;
        eexists;
        (split;
           [rewrite <- ?(assoc_L (++)); reflexivity|]);
        split; reflexivity. }
    rewrite process_from_escaped by exact Hout.
    exists evs. by rewrite Hevs, Hcr.
  - assert (process_item check (Some f) total idx e r
            = counted count_error r) as ->.
    { unfold DirectAirtableIntegration.process_item. by rewrite He. }
    destruct (IH (S idx) (counted count_error r) Hesc)
      as (evs & Hevs & Hcr & Hout).
    exists evs. by rewrite Hevs, Hcr, Hout.
Qed.

(** X26: a callback that raises from every call ends the batch at the
    first item with a link: that item's record is handed to [create],
    the exception raised in the [except] block leaves [save_results], and
    no later item is written.  Items without a link before it are
    skipped without a call. *)
Theorem raising_callback_ends_batch results search_queries dflt check f s o :
  (∀ n t c x o', (f n t c x o').1 = false) →
  escaped (save_results results search_queries dflt check (Some f) s o)
  = (if linked (all_items results (default ∅ search_queries) dflt) is []
     then false else true)
  ∧ creates
      (events (save_results results search_queries dflt check (Some f) s o))
    = take 1 (record_of
                <$> linked (all_items results (default ∅ search_queries)
                              dflt)).
Proof.
  intros Hf. unfold DirectAirtableIntegration.save_results.
  set (work := all_items _ _ _).
  set (r0 := {| stats := _; events := []; store := s; observer := o;
                escaped := false |}).
  destruct (process_from_callback_raises check f (length work) 0 work r0 Hf
              eq_refl) as (evs & Hevs & Hcr & Hout).
  rewrite Hevs, Hout. done.
Qed.

End UpsertFacts.

(** * The accumulation on concrete replies *)

Section AccumulatorRuns.
Import Main Scenarios.

Lemma run_repeated_link :
  search_website scripted (words "report") no_terms no_terms
    "example.org" false repeated_link = Some repeated_link_outcome.
Proof. reflexivity. Qed.

Lemma run_repeated_across_pages :
  search_website scripted (words "report") no_terms no_terms
    "example.org" false repeated_across_pages
  = Some repeated_across_pages_outcome.
Proof. reflexivity. Qed.

Lemma run_repeated_in_tier2 :
  search_website scripted (words "report") (words "study") no_terms
    "example.org" false repeated_in_tier2 = Some repeated_in_tier2_outcome.
Proof. reflexivity. Qed.

Lemma run_overlapping_tiers :
  search_website scripted (words "report") (words "study") no_terms
    "example.org" false overlapping_tiers = Some overlapping_outcome.
Proof. reflexivity. Qed.

Lemma run_tier1_only :
  search_website scripted (words "report") no_terms no_terms
    "example.org" false overlapping_tiers = Some tier1_only_outcome.
Proof. reflexivity. Qed.

Lemma run_no_terms :
  search_website scripted no_terms no_terms no_terms
    "example.org" false overlapping_tiers = Some no_terms_outcome.
Proof. reflexivity. Qed.

Lemma run_more_than_forty :
  search_button scripted (words "report") (words "study") no_terms
    ["example.org"] more_than_forty = Some more_than_forty_session.
Proof. reflexivity. Qed.

Lemma run_short_third_page :
  search_website scripted (words "report") no_terms no_terms
    "example.org" false short_third_page = Some short_third_page_outcome.
Proof. reflexivity. Qed.

Ltac distinct_values :=
  vm_compute; apply (bool_decide_unpack _); vm_compute; exact I.

(** C1 (as stated) fails: tier 1 appends a page as it is, so a link the
    service lists twice on the first page is kept twice. *)
Lemma tier1_repeated_link_kept :
  search_website scripted (words "report") no_terms no_terms
    "example.org" false repeated_link = Some repeated_link_outcome
  ∧ link_values (results repeated_link_outcome) = [VStr "u"; VStr "u"]
  ∧ ¬ NoDup (link_values (results repeated_link_outcome)).
Proof.
  split; [exact run_repeated_link|].
  assert (link_values (results repeated_link_outcome)
          = [VStr "u"; VStr "u"]) as -> by reflexivity.
  split; [reflexivity|].
  intros [Hin _]%NoDup_cons. apply Hin, list_elem_of_here.
Qed.

(** Tier 1 does not compare its pages with each other either: a link
    of its first page that comes back on its second is kept twice. *)
Lemma tier1_link_of_earlier_page_kept :
  link_values (results repeated_across_pages_outcome)
  = link_values (hits 0 10) ++ [VStr "a"]
  ∧ ¬ NoDup (link_values (results repeated_across_pages_outcome)).
Proof.
  assert (link_values (results repeated_across_pages_outcome)
          = link_values (hits 0 10) ++ [VStr "a"]) as -> by reflexivity.
  split; [reflexivity|].
  vm_compute. intros [Hin _]%NoDup_cons. apply Hin.
  do 9 apply list_elem_of_further. apply list_elem_of_here.
Qed.

(** A later tier compares a page with the accumulated list only, not with
    itself: a new link listed twice on one page is kept twice. *)
Lemma later_tier_repeated_link_kept :
  link_values (results repeated_in_tier2_outcome) = [VStr "u"; VStr "u"]
  ∧ ¬ NoDup (link_values (results repeated_in_tier2_outcome)).
Proof.
  assert (link_values (results repeated_in_tier2_outcome)
          = [VStr "u"; VStr "u"]) as -> by reflexivity.
  split; [reflexivity|].
  intros [Hin _]%NoDup_cons. apply Hin, list_elem_of_here.
Qed.

(** The cut to 40 is at work on the run of 39 + 10 items. *)
Lemma more_than_forty_cut : length more_than_forty_list = 40.
Proof. reflexivity. Qed.

(** C1 (amended), on a run where tier 2 returns a link of tier 1 again. *)
Lemma links_distinct_when_pages_distinct_witness :
  search_website scripted (words "report") (words "study") no_terms
    "example.org" false overlapping_tiers = Some overlapping_outcome
  ∧ NoDup (link_values (results overlapping_outcome)).
Proof.
  split; [exact run_overlapping_tiers|].
  apply (links_distinct_when_pages_distinct scripted
           (words "report") (words "study") no_terms "example.org" false
           overlapping_tiers overlapping_outcome run_overlapping_tiers).
  - distinct_values.
  - apply Forall_forall. unfold overlapping_outcome. cbn [log].
    repeat (constructor; [distinct_values|]). constructor.
Defined.

(** C2 (as stated) fails for tier 1: with all twelve fields empty the
    first page of tier 1 is requested all the same. *)
Lemma tier1_queried_without_terms :
  search_website scripted no_terms no_terms no_terms
    "example.org" false overlapping_tiers = Some no_terms_outcome
  ∧ active no_terms = false
  ∧ length (results no_terms_outcome) < 40
  ∧ ¬ no_request_without_terms no_terms no_terms no_terms
        (log no_terms_outcome).
Proof.
  split; [exact run_no_terms|]. split; [reflexivity|].
  split; [vm_compute; lia|].
  intros H.
  assert (tier_log 1 (log no_terms_outcome) = []) as Hnone.
  { apply (H 1 no_terms); [apply list_elem_of_here|reflexivity]. }
  apply (f_equal length) in Hnone. vm_compute in Hnone. discriminate.
Qed.

(** C2 (amended), on a run that leaves 3 items after tier 1. *)
Lemma later_tiers_without_terms_not_queried_witness :
  search_website scripted (words "report") no_terms no_terms
    "example.org" false overlapping_tiers = Some tier1_only_outcome
  ∧ length (results tier1_only_outcome) < 40
  ∧ tier_log 2 (log tier1_only_outcome) = []
  ∧ tier_log 3 (log tier1_only_outcome) = []
  ∧ tier_log 1 (log tier1_only_outcome) ≠ [].
Proof.
  split; [exact run_tier1_only|]. split; [vm_compute; lia|].
  destruct (later_tiers_without_terms_not_queried scripted
              (words "report") no_terms no_terms "example.org" false
              overlapping_tiers tier1_only_outcome run_tier1_only)
    as (H2 & H3 & H1).
  split; [apply H2; reflexivity|]. split; [apply H3; reflexivity|exact H1].
Defined.

(** C4, on a run where tier 2 returns the link "c" of tier 1 again. *)
Lemma first_tier_wins_witness :
  search_website scripted (words "report") (words "study") no_terms
    "example.org" false overlapping_tiers = Some overlapping_outcome
  ∧ link_values (results overlapping_outcome)
    = [VStr "a"; VStr "b"; VStr "c"; VStr "d"; VStr "e"]
  ∧ ∀ y, y ∈ results overlapping_outcome →
         y !! "link" = Some (VStr "c") →
         y !! "priority" = Some (VInt 1).
Proof.
  split; [exact run_overlapping_tiers|]. split; [reflexivity|].
  intros y Hy Hlk.
  apply (first_tier_wins scripted (words "report") (words "study") no_terms
           "example.org" false overlapping_tiers overlapping_outcome
           (asked 1 0 (words "report") (Some (page (hits 0 3))))
           (page (hits 0 3)) (hit "c") (VStr "c") y
           run_overlapping_tiers);
    [|reflexivity|reflexivity| |reflexivity|exact Hy|exact Hlk].
  - apply list_elem_of_here.
  - do 2 apply list_elem_of_further. apply list_elem_of_here.
Defined.

(** C5, on a run that gathers 39 items in tier 1 and 10 more in tier 2,
    of which one is kept. *)
Lemma results_capped_at_40_witness :
  search_button scripted (words "report") (words "study") no_terms
    ["example.org"] more_than_forty = Some more_than_forty_session
  ∧ s_results more_than_forty_session !! "example.org"
    = Some more_than_forty_list
  ∧ length more_than_forty_list ≤ 40.
Proof.
  split; [exact run_more_than_forty|]. split; [reflexivity|].
  exact (results_capped_at_40 scripted
           (words "report") (words "study") no_terms ["example.org"]
           more_than_forty more_than_forty_session "example.org"
           more_than_forty_list run_more_than_forty eq_refl).
Defined.

(** C6, on tier 1 pages of 10, 10 and 3 raw items. *)
Lemma page_loop_budget_and_early_stop_witness :
  search_website scripted (words "report") no_terms no_terms
    "example.org" false short_third_page = Some short_third_page_outcome
  ∧ length (tier_log 1 (log short_third_page_outcome)) = 3.
Proof.
  split; [exact run_short_third_page|].
  apply (proj2 (proj2
           (page_loop_budget_and_early_stop scripted
              (words "report") no_terms no_terms "example.org" false
              short_third_page short_third_page_outcome
              run_short_third_page))
           (page (hits 0 10)) (tail short_third_page)
           (page (hits 10 10)) (tail (tail short_third_page))
           (page (hits 20 3)) (tail (tail (tail short_third_page))));
    first [reflexivity | vm_compute; lia].
Defined.

End AccumulatorRuns.

(** * The batch upsert on concrete tables *)

Section UpsertRuns.
Import DirectAirtableIntegration Scenarios.

(** C3: on the batch of three items of which the first has an empty link,
    the callback is invoked for the second and the third item only: twice
    for three items, all of which are counted as processed. *)
Theorem empty_link_skips_callback :
  stats mixed_run
  = {| processed := 3; created := 1; duplicates := 0; errors := 2 |}
  ∧ callbacks (events mixed_run) = [2; 3]
  ∧ length (filter is_callback (events mixed_run)) = 2
  ∧ sum_list ((λ p : string * list item, length p.2) <$> mixed_batch) = 3.
Proof. repeat split; vm_compute; reflexivity. Qed.

(** C7: on a batch of one item with a link and a callback that raises
    from its first call, [save_results] returns [processed = 2].  Without
    the duplicate check the callback of line 155 raises inside the [try],
    so the [except] of lines 157-161 counts the item a second time and
    invokes the callback again; with the duplicate check on a table that
    holds the link, the callback of line 131 raises inside the inner
    [try], and the item, counted as a duplicate, goes on to be written
    and counted as created. *)
Theorem raising_callback_counted_twice :
  sum_list ((λ p : string * list item, length p.2) <$> single_batch) = 1
  ∧ escaped raised_after_write = false
  ∧ stats raised_after_write
    = {| processed := 2; created := 1; duplicates := 0; errors := 1 |}
  ∧ filter is_callback (events raised_after_write)
    = [Callback 1 1 1 0; Callback 1 1 1 1]
  ∧ escaped raised_after_duplicate = false
  ∧ stats raised_after_duplicate
    = {| processed := 2; created := 1; duplicates := 1; errors := 0 |}
  ∧ filter is_callback (events raised_after_duplicate)
    = [Callback 1 1 0 0; Callback 1 1 1 0].
Proof. repeat split; vm_compute; reflexivity. Qed.

(** C9, on a table whose lookups raise and whose creations succeed. *)
Lemma lookup_failure_falls_through_witness :
  truthy (link_of (hit "ok", "report", VInt 1)) = true
  ∧ broken_all (link_of (hit "ok", "report", VInt 1)) (store fresh_run)
    = (None, [])
  ∧ escaped fresh_run = false
  ∧ created (stats (process_item broken_all mem_create netloc_unknown
                      "2024-05-01" true (Some always_returns) 1 0
                      (hit "ok", "report", VInt 1) fresh_run)) = 1
  ∧ errors (stats (process_item broken_all mem_create netloc_unknown
                     "2024-05-01" true (Some always_returns) 1 0
                     (hit "ok", "report", VInt 1) fresh_run)) = 0
  ∧ duplicates (stats (process_item broken_all mem_create netloc_unknown
                         "2024-05-01" true (Some always_returns) 1 0
                         (hit "ok", "report", VInt 1) fresh_run)) = 0.
Proof.
  split; [reflexivity|]. split; [reflexivity|]. split; [reflexivity|].
  destruct (lookup_failure_falls_through broken_all mem_create netloc_unknown
              "2024-05-01" (Some always_returns) 1 0 (hit "ok") "report"
              (VInt 1) fresh_run [] [] eq_refl eq_refl eq_refl)
    as (_ & _ & Hdup & Hwrite & _).
  destruct Hwrite as [Hcreated Herrors].
  split; [exact Hcreated|]. split; [exact Herrors|exact Hdup].
Defined.

End UpsertRuns.

(** * More about the search accumulation *)

Section AccumulatorTrace.
Import Main.

Context {W : Type}.
Variable google_search : nat → string → Terms → W → option Response * W.

Local Abbreviation served := (served google_search).

Lemma none_last_single e : none_last [e].
Proof. intros [|i] e' H _; [done|]. by destruct i. Qed.

Lemma none_last_cons e new :
  ex_reply e ≠ None → none_last new → none_last (e :: new).
Proof.
  intros He Hnew [|i] e' H Hnone; simpl in *.
  - by simplify_eq.
  - f_equal. by eapply Hnew.
Qed.

Lemma take_pred_cons {A} (x : A) (l : list A) :
  l ≠ [] → take (length (x :: l) - 1) (x :: l) = x :: take (length l - 1) l.
Proof. destruct l; [done|]. intros _. simpl. by rewrite Nat.sub_0_r. Qed.

(** What the loop of tier 1 adds to the log and to the list. *)
Lemma tier1_pages_trace website t pages a :
  ∃ new,
    log (tier1_pages google_search website t pages a) = log a ++ new
    ∧ results (tier1_pages google_search website t pages a)
      = results a ++ tag 1 (new ≫= reply_items)
    ∧ (∀ w0, served (log a) w0 (world a) →
             served (log a ++ new) w0
               (world (tier1_pages google_search website t pages a)))
    ∧ Forall (asks 1 website t) new
    ∧ ex_page <$> new = take (length new) pages
    ∧ (pages ≠ [] → new ≠ [])
    ∧ none_last new
    ∧ (limitExceeded (tier1_pages google_search website t pages a) = true
       ↔ limitExceeded a = true ∨ Exists (λ e, ex_reply e = None) new)
    ∧ (length (results a) < 40 →
       length (results a)
       + length (take (length new - 1) new ≫= reply_items) < 40).
Proof.
  revert a. induction pages as [|page rest IH]; intros a; simpl.
  { exists []. rewrite !app_nil_r. repeat split; try done.
    - by left.
    - intros [?|H]; [done|]. by apply Exists_nil in H.
    - simpl. lia. }
  destruct (google_search page website t (world a)) as [[r|] w'] eqn:G.
  - destruct (stop_paging _ r) eqn:Hstop.
    + eexists [_]. cbn [log results world limitExceeded].
      split; [done|]. split; [by rewrite bind_cons, app_nil_r|].
      split; [intros w0 Hs; by eapply served_snoc|].
      split; [by repeat constructor|]. split; [done|]. split; [done|].
      split; [apply none_last_single|]. split.
      * split; [by left|]. intros [?|H]; [done|].
        apply Exists_cons in H as [H|H]; [done|]. by apply Exists_nil in H.
      * simpl. lia.
    + match goal with |- context [tier1_pages _ _ _ _ ?a'] =>
        destruct (IH a')
          as (new & Hlog & Hres & Hserved & Hasks & Hpages & _ & Hlast
              & Hlim & Hcap)
      end.
      cbn [log results world limitExceeded] in *.
      eexists (_ :: new). rewrite Hlog, Hres, <- !(assoc_L (++)).
      split; [done|].
      split; [by rewrite bind_cons; unfold tag; rewrite fmap_app|].
      split.
      { intros w0 Hs. rewrite cons_middle, (assoc_L (++)). apply Hserved.
        by eapply served_snoc. }
      split; [by repeat constructor|].
      split; [by rewrite fmap_cons, Hpages|]. split; [done|].
      split; [by apply none_last_cons|]. split.
      * rewrite Hlim. split.
        -- intros [?|H]; [by left|]. right. by apply Exists_cons_tl.
        -- intros [?|H]; [by left|].
           apply Exists_cons in H as [H|H]; [done|by right].
      * intros Ha. apply stop_paging_false in Hstop as [Hlen _].
        rewrite length_app, length_tag in Hlen, Hcap.
        destruct new as [|e' new'].
        { simpl. lia. }
        rewrite take_pred_cons by done. rewrite bind_cons, length_app.
        specialize (Hcap Hlen). cbn [reply_items ex_reply from_option].
        lia.
  - eexists [_]. cbn [log results world limitExceeded].
    split; [done|]. split; [by rewrite bind_cons, !app_nil_r|].
    split; [intros w0 Hs; by eapply served_snoc|].
    split; [by repeat constructor|]. split; [done|]. split; [done|].
    split; [apply none_last_single|]. split.
    + split; [|done]. intros _. right. by apply Exists_cons_hd.
    + simpl. lia.
Qed.

(** What the loop of a later tier adds to the log and to the list. *)
Lemma dedup_pages_trace k website t pages a a' :
  dedup_pages google_search k website t pages a = Some a' →
  ∃ new added,
    log a' = log a ++ new
    ∧ results a' = results a ++ added
    ∧ (∀ w0, served (log a) w0 (world a) →
             served (log a ++ new) w0 (world a'))
    ∧ Forall (asks k website t) new
    ∧ ex_page <$> new = take (length new) pages
    ∧ (pages ≠ [] → new ≠ [])
    ∧ none_last new
    ∧ (limitExceeded a' = true
       ↔ limitExceeded a = true ∨ Exists (λ e, ex_reply e = None) new)
    ∧ fresh_in k (results a) added
    ∧ added `sublist_of` tag (Z.of_nat k) (new ≫= reply_items).
Proof.
  revert a. induction pages as [|page rest IH]; intros a H; simpl in H.
  { simplify_eq. exists [], []. rewrite !app_nil_r. repeat split; try done.
    - by left.
    - intros [?|H]; [done|]. by apply Exists_nil in H.
    - constructor. }
  destruct (google_search page website t (world a)) as [[r|] w'] eqn:G.
  - destruct (new_items _ _) as [new1|] eqn:Hnew; [|done].
    cbn [mbind option_bind] in H.
    pose proof (new_items_fresh_in _ _ _ _ Hnew) as Hfresh1.
    apply new_items_sublist in Hnew.
    destruct (stop_paging _ r) eqn:Hstop.
    + simplify_eq. eexists [_], new1. cbn [log results world limitExceeded].
      split; [done|]. split; [done|].
      split; [intros w0 Hs; by eapply served_snoc|].
      split; [by repeat constructor|]. split; [done|]. split; [done|].
      split; [apply none_last_single|]. split; [|split; [done|]].
      * split; [by left|]. intros [?|H]; [done|].
        apply Exists_cons in H as [H|H]; [done|]. by apply Exists_nil in H.
      * by rewrite bind_cons, app_nil_r.
    + apply IH in H
        as (new & added & Hlog & Hres & Hserved & Hasks & Hpages & _ & Hlast
            & Hlim & Hfresh & Hsub).
      cbn [log results world limitExceeded] in *.
      eexists (_ :: new), (new1 ++ added).
      rewrite Hlog, Hres, <- !(assoc_L (++)).
      split; [done|]. split; [done|]. split.
      { intros w0 Hs. rewrite cons_middle, (assoc_L (++)). apply Hserved.
        by eapply served_snoc. }
      split; [by repeat constructor|].
      split; [by rewrite fmap_cons, Hpages|]. split; [done|].
      split; [by apply none_last_cons|]. split; [|split].
      * rewrite Hlim. split.
        -- intros [?|H]; [by left|]. right. by apply Exists_cons_tl.
        -- intros [?|H]; [by left|].
           apply Exists_cons in H as [H|H]; [done|by right].
      * apply Forall_app. split; [done|]. by eapply fresh_in_weaken.
      * rewrite bind_cons. unfold tag. rewrite fmap_app.
        by apply sublist_app.
  - simplify_eq. eexists [_], []. cbn [log results world limitExceeded].
    rewrite app_nil_r.
    split; [done|]. split; [done|].
    split; [intros w0 Hs; by eapply served_snoc|].
    split; [by repeat constructor|]. split; [done|]. split; [done|].
    split; [apply none_last_single|]. split; [|split].
    + split; [|done]. intros _. right. by apply Exists_cons_hd.
    + constructor.
    + apply sublist_nil_l.
Qed.

(** The same for the guarded loop: it sends a request exactly when its
    guard holds. *)
Lemma search_tier_trace k website t budget a a' :
  0 < budget →
  search_tier google_search k website t budget a = Some a' →
  ∃ new added,
    log a' = log a ++ new
    ∧ results a' = results a ++ added
    ∧ (∀ w0, served (log a) w0 (world a) →
             served (log a ++ new) w0 (world a'))
    ∧ Forall (asks k website t) new
    ∧ ex_page <$> new = seq 0 (length new)
    ∧ length new ≤ budget
    ∧ (new ≠ [] ↔ length (results a) < 40 ∧ active t = true)
    ∧ none_last new
    ∧ (limitExceeded a' = true
       ↔ limitExceeded a = true ∨ Exists (λ e, ex_reply e = None) new)
    ∧ fresh_in k (results a) added
    ∧ added `sublist_of` tag (Z.of_nat k) (new ≫= reply_items).
Proof.
  unfold search_tier, tier_guard. intros Hbudget H.
  destruct (_ && _) eqn:Hguard.
  - apply andb_prop in Hguard as [Hlen%Nat.ltb_lt Hactive].
    apply dedup_pages_trace in H
      as (new & added & Hlog & Hres & Hserved & Hasks & Hpages & Hne & Hlast
          & Hlim & Hfresh & Hsub).
    exists new, added.
    assert (length new ≤ budget) as Hle.
    { apply (f_equal length) in Hpages.
      rewrite length_fmap, length_take, length_seq in Hpages. lia. }
    repeat split; try done.
    + rewrite Hpages. by rewrite take_seq, Nat.min_l.
    + intros _. apply Hne. destruct budget; [lia|done].
    + by apply Hlim.
    + by apply Hlim.
  - simplify_eq. exists [], []. rewrite !app_nil_r.
    repeat split; try done; try (simpl; lia).
    + intros [Hlen%Nat.ltb_lt Hactive]. by rewrite Hlen, Hactive in Hguard.
    + by left.
    + intros [?|H]; [done|]. by apply Exists_nil in H.
    + constructor.
Qed.

Lemma length_pages_prefix (new : list Exchange) pages :
  ex_page <$> new = take (length new) pages → length new ≤ length pages.
Proof.
  intros H%(f_equal length). rewrite length_fmap, length_take in H. lia.
Qed.

(** The exchanges and the list of one website, tier by tier. *)
Lemma search_website_trace t1 t2 t3 website lim w a :
  search_website google_search t1 t2 t3 website lim w = Some a →
  ∃ n1 n2 n3 added2 added3,
    log a = n1 ++ n2 ++ n3
    ∧ results a = take 40 (tag 1 (n1 ≫= reply_items) ++ added2 ++ added3)
    ∧ served (log a) w (world a)
    ∧ (Forall (asks 1 website t1) n1
       ∧ Forall (asks 2 website t2) n2
       ∧ Forall (asks 3 website t3) n3)
    ∧ (ex_page <$> n1 = seq 0 (length n1)
       ∧ ex_page <$> n2 = seq 0 (length n2)
       ∧ ex_page <$> n3 = seq 0 (length n3))
    ∧ (none_last n1 ∧ none_last n2 ∧ none_last n3)
    ∧ (limitExceeded a = true
       ↔ lim = true ∨ Exists (λ e, ex_reply e = None) (n1 ++ n2 ++ n3))
    ∧ (added2 `sublist_of` tag 2 (n2 ≫= reply_items)
       ∧ added3 `sublist_of` tag 3 (n3 ≫= reply_items))
    ∧ (fresh_in 2 (tag 1 (n1 ≫= reply_items)) added2
       ∧ fresh_in 3 (tag 1 (n1 ≫= reply_items) ++ added2) added3)
    ∧ length (take (length n1 - 1) n1 ≫= reply_items) < 40
    ∧ (n2 ≠ [] ↔ length (tag 1 (n1 ≫= reply_items)) < 40 ∧ active t2 = true)
    ∧ (n3 ≠ []
       ↔ length (tag 1 (n1 ≫= reply_items) ++ added2) < 40
         ∧ active t3 = true)
    ∧ (length n1 ≤ 4 ∧ length n2 ≤ 8 ∧ length n3 ≤ 10).
Proof.
  unfold search_website. intros H.
  destruct (tier1_pages_trace website t1 (seq 0 4)
              {| results := []; limitExceeded := lim;
                 log := []; world := w |})
    as (n1 & Hlog1 & Hres1 & Hserved1 & Hasks1 & Hpages1 & _ & Hlast1
        & Hlim1 & Hcap1).
  cbn [log results world limitExceeded app] in *.
  pose proof (length_pages_prefix _ _ Hpages1) as Hlen1.
  rewrite length_seq in Hlen1.
  rewrite take_seq, Nat.min_l in Hpages1 by done.
  specialize (Hserved1 w (served_nil _ w)).
  assert (0 < 40) as Hcap0 by lia. specialize (Hcap1 Hcap0). clear Hcap0.
  destruct (search_tier _ 2 _ _ _ _) as [a2|] eqn:H2; [|done].
  cbn [mbind option_bind] in H.
  destruct (search_tier _ 3 _ _ _ _) as [a3|] eqn:H3; [|done].
  cbn [mbind option_bind] in H.
  apply (inj Some) in H. subst a. cbn [log results world limitExceeded].
  apply search_tier_trace in H2
    as (n2 & added2 & Hlog2 & Hres2 & Hserved2 & Hasks2 & Hpages2 & Hlen2
        & Hne2 & Hlast2 & Hlim2 & Hfresh2 & Hsub2); [|lia].
  apply search_tier_trace in H3
    as (n3 & added3 & Hlog3 & Hres3 & Hserved3 & Hasks3 & Hpages3 & Hlen3
        & Hne3 & Hlast3 & Hlim3 & Hfresh3 & Hsub3); [|lia].
  rewrite Hres1 in Hres2, Hfresh2, Hne2.
  rewrite Hres2 in Hres3, Hfresh3, Hne3.
  rewrite Hlog1 in Hlog2, Hserved2. rewrite Hlog2 in Hlog3, Hserved3.
  exists n1, n2, n3, added2, added3.
  rewrite Hlog3, Hres3, <- !(assoc_L (++)).
  split; [done|]. split; [done|].
  split. { rewrite (assoc_L (++)). auto. }
  split; [done|]. split; [done|]. split; [done|]. split.
  { rewrite Hlim3, Hlim2, Hlim1, !Exists_app.
    repeat match goal with H : _ |- _ => clear H end. tauto. }
  split; [done|]. split; [done|]. split; [lia|]. split; [done|].
  split; done.
Qed.

Lemma asks_tier k website t lg :
  Forall (asks k website t) lg → Forall (λ e, ex_tier e = k) lg.
Proof. intros H. eapply Forall_impl; [exact H|]. by intros e (? & _). Qed.

(** The three parts of the log are its tier logs. *)
Lemma tier_logs_of_parts website t1 t2 t3 n1 n2 n3 :
  Forall (asks 1 website t1) n1 →
  Forall (asks 2 website t2) n2 →
  Forall (asks 3 website t3) n3 →
  tier_log 1 (n1 ++ n2 ++ n3) = n1
  ∧ tier_log 2 (n1 ++ n2 ++ n3) = n2
  ∧ tier_log 3 (n1 ++ n2 ++ n3) = n3
  ∧ (∀ k, k ≠ 1 → k ≠ 2 → k ≠ 3 → tier_log k (n1 ++ n2 ++ n3) = []).
Proof.
  intros H1%asks_tier H2%asks_tier H3%asks_tier. by apply tier_log_split.
Qed.

(** X1: per website the requests go tier by tier; within a tier they ask
    for the pages 0, 1, 2, ... in order, for that website and with that
    tier's own four terms. *)
Theorem tier_requests_in_order t1 t2 t3 website lim w a :
  search_website google_search t1 t2 t3 website lim w = Some a →
  log a = tier_log 1 (log a) ++ tier_log 2 (log a) ++ tier_log 3 (log a)
  ∧ (Forall (asks 1 website t1) (tier_log 1 (log a))
     ∧ ex_page <$> tier_log 1 (log a)
       = seq 0 (length (tier_log 1 (log a))))
  ∧ (Forall (asks 2 website t2) (tier_log 2 (log a))
     ∧ ex_page <$> tier_log 2 (log a)
       = seq 0 (length (tier_log 2 (log a))))
  ∧ (Forall (asks 3 website t3) (tier_log 3 (log a))
     ∧ ex_page <$> tier_log 3 (log a)
       = seq 0 (length (tier_log 3 (log a)))).
Proof.
  intros (n1 & n2 & n3 & added2 & added3 & Hlog & _ & _ & (A1 & A2 & A3)
          & (P1 & P2 & P3) & _)%search_website_trace.
  destruct (tier_logs_of_parts _ _ _ _ _ _ _ A1 A2 A3) as (L1 & L2 & L3 & _).
  rewrite Hlog, L1, L2, L3. done.
Qed.

(** X2: a call that comes back [None] (every key over its limit) ends
    the page loop of its tier: no later request of that tier follows. *)
Theorem rate_limit_ends_tier t1 t2 t3 website lim w a k :
  search_website google_search t1 t2 t3 website lim w = Some a →
  none_last (tier_log k (log a)).
Proof.
  intros (n1 & n2 & n3 & added2 & added3 & Hlog & _ & _ & (A1 & A2 & A3)
          & _ & (N1 & N2 & N3) & _)%search_website_trace.
  destruct (tier_logs_of_parts _ _ _ _ _ _ _ A1 A2 A3) as (L1 & L2 & L3 & Lk).
  rewrite Hlog.
  destruct (decide (k = 1)) as [->|?]; [by rewrite L1|].
  destruct (decide (k = 2)) as [->|?]; [by rewrite L2|].
  destruct (decide (k = 3)) as [->|?]; [by rewrite L3|].
  rewrite Lk by done. by intros i e ?.
Qed.

(** X3: after a website, [limitExceeded] is set exactly when it was set
    before or one of the website's calls came back [None]; it is never
    reset. *)
Theorem limit_flag_iff t1 t2 t3 website lim w a :
  search_website google_search t1 t2 t3 website lim w = Some a →
  limitExceeded a = true
  ↔ lim = true ∨ ∃ e, e ∈ log a ∧ ex_reply e = None.
Proof.
  intros (n1 & n2 & n3 & added2 & added3 & Hlog & _ & _ & _ & _ & _
          & Hlim & _)%search_website_trace.
  rewrite Hlim, Hlog, Exists_exists. done.
Qed.

(** X4: every item of the final list is an item some reply of the run
    returned, changed in its [priority] key only, which holds the number
    (1, 2 or 3) of the tier that received the reply. *)
Theorem results_come_from_replies t1 t2 t3 website lim w a y :
  search_website google_search t1 t2 t3 website lim w = Some a →
  y ∈ results a →
  ∃ e x,
    e ∈ log a ∧ x ∈ reply_items e
    ∧ y = <["priority" := VInt (Z.of_nat (ex_tier e))]> x
    ∧ (ex_tier e = 1 ∨ ex_tier e = 2 ∨ ex_tier e = 3).
Proof.
  intros (n1 & n2 & n3 & added2 & added3 & Hlog & Hres & _ & (A1 & A2 & A3)
          & _ & _ & _ & (O2 & O3) & _)%search_website_trace Hy.
  rewrite Hres in Hy. apply subseteq_take in Hy.
  assert (∀ k n, Forall (λ e, ex_tier e = k) n →
            y ∈ tag (Z.of_nat k) (n ≫= reply_items) →
            ∃ e x, e ∈ n ∧ x ∈ reply_items e
                   ∧ y = <["priority" := VInt (Z.of_nat (ex_tier e))]> x
                   ∧ ex_tier e = k) as Horigin.
  { intros k n Hn (x & -> & (e & Hx & He)%list_elem_of_bind)%list_elem_of_fmap.
    rewrite Forall_forall in Hn. exists e, x. by rewrite (Hn e He). }
  rewrite Hlog. rewrite !elem_of_app in Hy. destruct Hy as [Hy|[Hy|Hy]].
  - destruct (Horigin 1 n1 (asks_tier _ _ _ _ A1) Hy) as (e & x & ? & ? & ? & ?).
    exists e, x. rewrite !elem_of_app. auto.
  - apply (sublist_subseteq _ _ O2) in Hy.
    destruct (Horigin 2 n2 (asks_tier _ _ _ _ A2) Hy) as (e & x & ? & ? & ? & ?).
    exists e, x. rewrite !elem_of_app. auto 6.
  - apply (sublist_subseteq _ _ O3) in Hy.
    destruct (Horigin 3 n3 (asks_tier _ _ _ _ A3) Hy) as (e & x & ? & ? & ? & ?).
    exists e, x. rewrite !elem_of_app. auto 6.
Qed.

Lemma tag_tagged k its : Forall (tagged k) (tag k its).
Proof.
  apply Forall_forall. intros y (x & -> & _)%list_elem_of_fmap.
  apply lookup_insert_eq.
Qed.

Lemma fresh_in_tagged k acc added :
  fresh_in k acc added → Forall (tagged (Z.of_nat k)) added.
Proof. intros H. eapply Forall_impl; [exact H|]. by intros y [? _]. Qed.

(** X5: the final list holds the items of tier 1 first, then those of
    tier 2, then those of tier 3, each tagged with its tier. *)
Theorem results_ordered_by_tier t1 t2 t3 website lim w a :
  search_website google_search t1 t2 t3 website lim w = Some a →
  ∃ l1 l2 l3,
    results a = l1 ++ l2 ++ l3
    ∧ Forall (tagged 1) l1 ∧ Forall (tagged 2) l2 ∧ Forall (tagged 3) l3.
Proof.
  intros (n1 & n2 & n3 & added2 & added3 & _ & Hres & _ & _ & _ & _ & _ & _
          & (F2 & F3) & _)%search_website_trace.
  rewrite Hres, !take_app. do 3 eexists. split; [reflexivity|].
  split; [apply Forall_take, tag_tagged|].
  split; apply Forall_take.
  - exact (fresh_in_tagged 2 _ _ F2).
  - exact (fresh_in_tagged 3 _ _ F3).
Qed.

Lemma filter_all {A} (P : A → Prop) `{!∀ x, Decision (P x)} (l : list A) :
  Forall P l → filter P l = l.
Proof.
  induction 1 as [|x l Hx _ IH]; [done|].
  by rewrite filter_cons_True, IH.
Qed.

Lemma filter_none {A} (P : A → Prop) `{!∀ x, Decision (P x)} (l : list A) :
  Forall (λ x, ¬ P x) l → filter P l = [].
Proof.
  induction 1 as [|x l Hx _ IH]; [done|].
  by rewrite filter_cons_False.
Qed.

Lemma tagged_priority_below k j it :
  tagged k it → priority_below j it = (k <? j)%Z.
Proof. unfold tagged, priority_below. by intros ->. Qed.

(** The items tagged below [k] of a cut list whose front is tagged below
    [k] and whose back is not. *)
Lemma below_tier_take k n (front back : list item) :
  Forall (λ it, priority_below k it = true) front →
  Forall (λ it, priority_below k it = false) back →
  below_tier k (take n (front ++ back)) = take n front.
Proof.
  intros Hfront Hback. unfold below_tier.
  rewrite take_app, filter_app.
  rewrite filter_all by by apply Forall_take.
  rewrite filter_none, app_nil_r; [done|].
  apply Forall_take. eapply Forall_impl; [exact Hback|].
  intros it ->. done.
Qed.

Lemma length_take_lt {A} (l : list A) n : length (take n l) < n ↔ length l < n.
Proof. rewrite length_take. lia. Qed.

(** X6: tier 2 (tier 3) is sent a request exactly when it has a term and
    the tiers before it left fewer than 40 items, whether or not a call
    of an earlier tier came back [None]. *)
Theorem later_tier_queried_iff t1 t2 t3 website lim w a :
  search_website google_search t1 t2 t3 website lim w = Some a →
  (tier_log 2 (log a) ≠ []
   ↔ active t2 = true ∧ length (below_tier 2 (results a)) < 40)
  ∧ (tier_log 3 (log a) ≠ []
     ↔ active t3 = true ∧ length (below_tier 3 (results a)) < 40).
Proof.
  intros (n1 & n2 & n3 & added2 & added3 & Hlog & Hres & _ & (A1 & A2 & A3)
          & _ & _ & _ & _ & (F2 & F3) & _ & G2 & G3 & _)%search_website_trace.
  destruct (tier_logs_of_parts _ _ _ _ _ _ _ A1 A2 A3) as (_ & L2 & L3 & _).
  rewrite Hlog, L2, L3, G2, G3, Hres. clear Hlog Hres G2 G3.
  pose proof (tag_tagged 1 (n1 ≫= reply_items)) as T1.
  apply fresh_in_tagged in F2, F3. simpl in F2, F3.
  split.
  - rewrite below_tier_take, length_take_lt; [tauto|..].
    + eapply Forall_impl; [exact T1|]. intros it Hit.
      by rewrite (tagged_priority_below 1).
    + apply Forall_app. split.
      * eapply Forall_impl; [exact F2|]. intros it Hit.
        by rewrite (tagged_priority_below 2).
      * eapply Forall_impl; [exact F3|]. intros it Hit.
        by rewrite (tagged_priority_below 3).
  - rewrite (assoc_L (++)), below_tier_take, length_take_lt; [tauto|..].
    + apply Forall_app. split.
      * eapply Forall_impl; [exact T1|]. intros it Hit.
        by rewrite (tagged_priority_below 1).
      * eapply Forall_impl; [exact F2|]. intros it Hit.
        by rewrite (tagged_priority_below 2).
    + eapply Forall_impl; [exact F3|]. intros it Hit.
      by rewrite (tagged_priority_below 3).
Qed.

(** X7: tier 1 asks for a further page only while fewer than 40 items are
    accumulated: its replies before the last hold fewer than 40 raw items
    together. *)
Theorem tier1_stops_at_cap t1 t2 t3 website lim w a :
  search_website google_search t1 t2 t3 website lim w = Some a →
  length (take (length (tier_log 1 (log a)) - 1) (tier_log 1 (log a))
          ≫= reply_items) < 40.
Proof.
  intros (n1 & n2 & n3 & added2 & added3 & Hlog & _ & _ & (A1 & A2 & A3)
          & _ & _ & _ & _ & _ & Hcap & _)%search_website_trace.
  destruct (tier_logs_of_parts _ _ _ _ _ _ _ A1 A2 A3) as (L1 & _).
  by rewrite Hlog, L1.
Qed.

Lemma nonempty_true s : nonempty s = true ↔ s ≠ "".
Proof.
  unfold nonempty. rewrite negb_true_iff. apply String.eqb_neq.
Qed.

Lemma search_websites_dom t1 t2 t3 websites s s' site :
  search_websites google_search t1 t2 t3 websites s = Some s' →
  is_Some (s_results s' !! site)
  ↔ is_Some (s_results s !! site) ∨ (site ∈ websites ∧ site ≠ "").
Proof.
  revert s. induction websites as [|website rest IH]; intros s H; simpl in H.
  { simplify_eq. rewrite elem_of_nil. tauto. }
  destruct (nonempty website) eqn:Hne.
  - destruct (search_website _ _ _ _ _ _ _) as [a|]; [|done].
    cbn [mbind option_bind] in H. rewrite (IH _ H). cbn [s_results].
    apply nonempty_true in Hne. rewrite elem_of_cons.
    destruct (decide (website = site)) as [->|Hother].
    + rewrite lookup_insert_eq. split; [|by eauto].
      intros _. right. auto.
    + rewrite lookup_insert_ne by done. split.
      * intros [?|[? ?]]; [by left|right; auto].
      * intros [?|[[?|?] ?]]; [by left|by subst|right; auto].
  - rewrite (IH _ H), elem_of_cons.
    assert (website = "") as ->.
    { destruct (decide (website = "")) as [?|Hn]; [done|].
      apply nonempty_true in Hn. congruence. }
    split.
    + intros [?|[? ?]]; [by left|right; auto].
    + intros [?|[[?|?] ?]]; [by left|by subst|right; auto].
Qed.

(** X8: when the search has run, [st.session_state['results']] has an
    entry for exactly the non-empty lines of the text area. *)
Theorem searched_websites t1 t2 t3 websites w s site :
  search_button google_search t1 t2 t3 websites w = Some s →
  is_Some (s_results s !! site) ↔ site ∈ websites ∧ site ≠ "".
Proof.
  unfold search_button. intros H.
  rewrite (search_websites_dom _ _ _ _ _ _ _ H). cbn [s_results].
  rewrite lookup_empty. split; [|by right].
  intros [[? ?]|?]; done.
Qed.

(** X9: the filter of a later tier raises [KeyError] exactly when the
    page is not empty and some item of the page or of the accumulated
    list has no [link]; an empty page never raises. *)
Theorem new_items_KeyError_iff acc its :
  new_items acc its = None
  ↔ its ≠ [] ∧ (¬ Forall has_link its ∨ ¬ Forall has_link acc).
Proof.
  split.
  - intros Hnone. split; [by intros ->|].
    destruct (decide (Forall has_link its)) as [Hits|?]; [|by left].
    destruct (decide (Forall has_link acc)) as [Hacc|?]; [|by right].
    destruct (new_items_total acc its Hacc Hits) as (new & Hnew & _).
    congruence.
  - intros [Hne [Hits|Hacc]].
    + clear Hne. induction its as [|it rest IH]; [by destruct Hits|].
      simpl. destruct (it !! "link") as [lk|] eqn:Hlk; [|done].
      cbn [mbind option_bind]. destruct (links acc); [|done].
      cbn [mbind option_bind]. rewrite IH; [done|].
      intros Hrest. apply Hits. constructor; [by exists lk|done].
    + destruct its as [|it rest]; [done|]. simpl.
      assert (links acc = None) as ->.
      { apply eq_None_not_Some. by intros Hsome%mapM_is_Some. }
      by destruct (it !! "link").
Qed.

(** Every item of the final list carries the tag of one of the tiers. *)
Lemma results_tagged t1 t2 t3 website lim w a :
  search_website google_search t1 t2 t3 website lim w = Some a →
  Forall (λ y, tagged 1 y ∨ tagged 2 y ∨ tagged 3 y) (results a).
Proof.
  intros (n1 & n2 & n3 & added2 & added3 & _ & Hres & _ & _ & _ & _ & _ & _
          & (F2 & F3) & _)%search_website_trace.
  rewrite Hres. apply Forall_take. rewrite !Forall_app.
  split; [|split].
  - eapply Forall_impl; [apply tag_tagged|]. auto.
  - eapply Forall_impl; [exact (fresh_in_tagged 2 _ _ F2)|]. auto.
  - eapply Forall_impl; [exact (fresh_in_tagged 3 _ _ F3)|]. auto.
Qed.

End AccumulatorTrace.

(** * Facts about [google_search] *)

Section GoogleSearchFacts.
Import Main.

Context {Http : Type}.
Variable requests_get : Params → Http → Body * Http.
Variables GS1_CX GS1_KEY GS2_KEY GS3_KEY : string.

Local Abbreviation try_credentials := (try_credentials requests_get).
Local Abbreviation google_search :=
  (google_search requests_get GS1_CX GS1_KEY GS2_KEY GS3_KEY).
Local Abbreviation GS_KEYS := (GS_KEYS GS1_KEY GS2_KEY GS3_KEY).
Local Abbreviation website_request :=
  (website_request GS1_CX GS1_KEY GS2_KEY GS3_KEY).

Lemma with_credentials_twice cx key cx' key' p :
  with_credentials cx key (with_credentials cx' key' p)
  = with_credentials cx key p.
Proof. done. Qed.

(** What the loop over the credentials sends and when it gives up. *)
Lemma try_credentials_spec creds params n :
  ∃ sent,
    net_sent (try_credentials creds params n).2 = net_sent n ++ sent
    ∧ sent.*1 = (λ c, with_credentials c.1 c.2 params)
                  <$> take (length sent) creds
    ∧ length sent ≤ length creds
    ∧ (creds ≠ [] → sent ≠ [])
    ∧ Forall (λ x, rate_limited x.2 = true) (take (length sent - 1) sent)
    ∧ ((try_credentials creds params n).1 = None
       ↔ length sent = length creds
         ∧ Forall (λ x, rate_limited x.2 = true) sent)
    ∧ (∀ b, (try_credentials creds params n).1 = Some b →
            rate_limited b = false ∧ last (sent.*2) = Some b).
Proof.
  revert params n. induction creds as [|[cx key] rest IH]; intros params n.
  { exists []. simpl. rewrite app_nil_r. repeat split; done. }
  simpl. destruct (requests_get _ (net_state n)) as [response h] eqn:G.
  destruct (rate_limited response) eqn:Hlimited; simpl.
  - match goal with |- context [try_credentials rest ?p ?n'] =>
      destruct (IH p n') as (sent & Hsent & Hreqs & Hlen & _ & Hpre & Hnone
                             & Hsome)
    end.
    cbn [net_sent] in Hsent.
    eexists (_ :: sent). rewrite Hsent, <- (assoc_L (++)).
    split; [done|]. split.
    { cbn [fmap list_fmap length take fst snd]. f_equal.
      rewrite Hreqs. apply list_fmap_ext. intros i c _.
      apply with_credentials_twice. }
    split; [simpl; lia|]. split; [done|]. split; [|split].
    + destruct sent as [|x sent']; [constructor|].
      rewrite take_pred_cons by done. by constructor.
    + rewrite Hnone. simpl. rewrite Forall_cons. simpl.
      split; [intros [? ?]; split; [lia|done]|].
      intros [? [_ ?]]. split; [lia|done].
    + intros b Hb. destruct (Hsome b Hb) as [? Hlast]. split; [done|].
      rewrite fmap_cons. destruct (sent.*2) eqn:E; [done|]. done.
  - eexists [_]. cbn [net_sent fst snd].
    split; [done|]. split; [done|]. split; [simpl; lia|]. split; [done|].
    split; [constructor|]. split.
    + split; [done|]. intros [_ Hall]. apply Forall_cons in Hall as [Hx _].
      simpl in Hx. congruence.
    + intros b [= <-]. done.
Qed.

Lemma google_search_sent page site t n :
  ∃ sent,
    net_sent (google_search page site t n).2 = net_sent n ++ sent
    ∧ 1 ≤ length sent ∧ length sent ≤ 3
    ∧ sent.*1
      = (λ key, {| p_q := q t; p_key := key; p_cx := GS1_CX; p_num := 10;
                   p_start := page * 10 + 1; p_siteSearch := site;
                   p_exactTerms := exactTerms t; p_orTerms := orTerms t;
                   p_excludeTerms := excludeTerms t |})
          <$> take (length sent) GS_KEYS.
Proof.
  unfold Main.google_search.
  destruct (try_credentials_spec
              (zip (GS_CX GS1_CX) GS_KEYS) (search_params page site t) n)
    as (sent & Hsent & Hreqs & Hlen & Hne & _).
  destruct (try_credentials _ _ n) as [found n']. cbn [fst snd] in *.
  exists sent. split; [done|].
  assert (sent ≠ []) as Hsome by by apply Hne.
  split; [destruct sent; [done|simpl; lia]|]. split; [done|].
  rewrite Hreqs. simpl in Hlen.
  destruct sent as [|? [|? [|? [|? ?]]]]; simpl in Hlen; try lia; done.
Qed.

(** X10: one call of [google_search] sends between one and three
    requests, each asking for 10 results from result number
    [page * 10 + 1] on the site with the four terms and the engine
    [GS1_CX], and differing in the key only: GS1_KEY, then GS2_KEY, then
    GS3_KEY. *)
Theorem google_search_requests page site t n :
  ∃ sent,
    net_sent (google_search page site t n).2 = net_sent n ++ sent
    ∧ 1 ≤ length sent ∧ length sent ≤ 3
    ∧ sent.*1
      = (λ key, {| p_q := q t; p_key := key; p_cx := GS1_CX; p_num := 10;
                   p_start := page * 10 + 1; p_siteSearch := site;
                   p_exactTerms := exactTerms t; p_orTerms := orTerms t;
                   p_excludeTerms := excludeTerms t |})
          <$> take (length sent) GS_KEYS.
Proof. apply google_search_sent. Qed.

(** X11: [google_search] returns [None] exactly when all three keys were
    tried and each answer was a rate-limit error; otherwise it returns
    the answer to the last request it sent, which is the first that is
    not a rate-limit error. *)
Theorem google_search_gives_up_iff page site t n :
  ∃ sent,
    net_sent (google_search page site t n).2 = net_sent n ++ sent
    ∧ Forall (λ x, rate_limited x.2 = true) (take (length sent - 1) sent)
    ∧ ((google_search page site t n).1 = None
       ↔ length sent = 3 ∧ Forall (λ x, rate_limited x.2 = true) sent)
    ∧ (∀ r, (google_search page site t n).1 = Some r →
            ∃ b, last (sent.*2) = Some b ∧ rate_limited b = false
                 ∧ r = response_of b).
Proof.
  unfold Main.google_search.
  destruct (try_credentials_spec
              (zip (GS_CX GS1_CX) GS_KEYS) (search_params page site t) n)
    as (sent & Hsent & _ & _ & _ & Hpre & Hnone & Hsome).
  destruct (try_credentials _ _ n) as [found n']. cbn [fst snd] in *.
  exists sent. split; [done|]. split; [done|]. split.
  - rewrite <- Hnone. by destruct found.
  - intros r Hr. destruct found as [b|]; [|done].
    injection Hr as <-. destruct (Hsome b eq_refl). by exists b.
Qed.

Lemma served_sent website lg n n' :
  served google_search lg n n' →
  Forall (λ e, ex_site e = website ∧ ex_page e < 10) lg →
  ∃ sent,
    net_sent n' = net_sent n ++ sent
    ∧ length lg ≤ length sent ∧ length sent ≤ 3 * length lg
    ∧ Forall (λ x, website_request website x.1) sent.
Proof.
  induction 1 as [w|lg e w w1 w2 _ IH Hcall]; intros Hlg.
  { exists []. rewrite app_nil_r. repeat split; try done; simpl; lia. }
  apply Forall_app in Hlg as [Hlg He].
  apply Forall_singleton in He as [Hsite Hpage].
  destruct (IH Hlg) as (sent1 & Hsent1 & Hlo & Hhi & Hreq).
  destruct (google_search_sent (ex_page e) (ex_site e) (ex_terms e) w1)
    as (sent2 & Hsent2 & Hge & Hle & Hparams).
  rewrite Hcall in Hsent2. cbn [snd] in Hsent2.
  exists (sent1 ++ sent2). rewrite Hsent2, Hsent1, (assoc_L (++)).
  split; [done|]. rewrite !length_app. simpl.
  split; [lia|]. split; [lia|].
  apply Forall_app. split; [done|].
  assert (Forall (website_request website) (sent2.*1)) as Hall.
  { rewrite Hparams. apply Forall_fmap, Forall_forall.
    intros key Hkey%subseteq_take.
    unfold Main.website_request. simpl. eauto 10. }
  exact (proj1 (Forall_fmap _ _ _) Hall).
Qed.

Lemma page_below_length (lg : list Exchange) e :
  ex_page <$> lg = seq 0 (length lg) → e ∈ lg → ex_page e < length lg.
Proof.
  intros Hpages (i & Hi)%list_elem_of_lookup_1.
  assert ((ex_page <$> lg) !! i = Some (ex_page e)) as Hp.
  { by rewrite list_lookup_fmap, Hi. }
  rewrite Hpages in Hp. apply lookup_seq in Hp as [-> ?]. done.
Qed.

(** X12: with this [google_search], the search of one website sends at
    most 66 requests (three keys for each of at most 4 + 8 + 10 pages),
    between one and three per page asked for; each asks for 10 results
    of that website from result number 1, 11, ..., 91 on, with the engine
    [GS1_CX] and one of the three keys. *)
Theorem website_http_requests t1 t2 t3 website lim n a :
  search_website google_search t1 t2 t3 website lim n = Some a →
  ∃ sent,
    net_sent (world a) = net_sent n ++ sent
    ∧ length (log a) ≤ length sent
    ∧ length sent ≤ 3 * length (log a)
    ∧ length sent ≤ 66
    ∧ Forall (λ x, website_request website x.1) sent.
Proof.
  intros (n1 & n2 & n3 & added2 & added3 & Hlog & _ & Hserved & (A1 & A2 & A3)
          & (P1 & P2 & P3) & _ & _ & _ & _ & _ & _ & _
          & (B1 & B2 & B3))%search_website_trace.
  assert (∀ k t lg, Forall (asks k website t) lg →
            ex_page <$> lg = seq 0 (length lg) → length lg ≤ 10 →
            Forall (λ e, ex_site e = website ∧ ex_page e < 10) lg) as Hpart.
  { intros k t lg Hasks Hpages Hlen. apply Forall_forall. intros e He.
    rewrite Forall_forall in Hasks. destruct (Hasks e He) as (_ & ? & _).
    split; [done|]. pose proof (page_below_length lg e Hpages He). lia. }
  destruct (served_sent website (log a) n (world a) Hserved)
    as (sent & Hsent & Hlo & Hhi & Hreq).
  { rewrite Hlog, !Forall_app.
    split; [|split]; eapply Hpart; try done; lia. }
  exists sent. split; [done|]. split; [done|]. split; [done|].
  split; [|done]. rewrite Hlog, !length_app in Hhi. lia.
Qed.

End GoogleSearchFacts.

(** * From the accumulated list to the table *)

Section Pipeline.
Import Main DirectAirtableIntegration.

Context {W Tbl Rec Obs : Type}.
Variable google_search : nat → string → Terms → W → option Response * W.
Variable table_all : value → Tbl → option (list Rec) * Tbl.
Variable table_create : UpsertRecord → Tbl → bool * Tbl.
Variable urlparse_netloc : string → option string.
Variable today : string.

Local Abbreviation save_results :=
  (@save_results Tbl Rec Obs table_all table_create urlparse_netloc today).

(** X17: when the list accumulated for a website is saved, every record
    handed to [create] carries the link and the tier tag (1, 2 or 3) of
    an item of that list; the default priority of [save_results] is never
    written. *)
Theorem accumulated_priority_written t1 t2 t3 website lim w a
    search_queries dflt check cb s o :
  search_website google_search t1 t2 t3 website lim w = Some a →
  Forall (λ record,
            ∃ y k, y ∈ results a ∧ tagged k y
                   ∧ (k = 1 ∨ k = 2 ∨ k = 3)%Z
                   ∧ priority record = VInt k
                   ∧ link record = dict_get "link" (VStr "") y)
    (creates (events (save_results [(website, results a)]
                        search_queries dflt check cb s o))).
Proof.
  intros Htags%results_tagged.
  destruct (save_results_effect table_all table_create urlparse_netloc today
              [(website, results a)] search_queries dflt check cb s o)
    as (work & -> & _ & _ & Hsub & _).
  apply Forall_forall. intros record Hrec%(sublist_subseteq _ _ Hsub).
  apply list_elem_of_fmap in Hrec as (e & -> & He).
  apply list_elem_of_filter in He as [_ He].
  unfold all_items in He. rewrite bind_cons, app_nil_r in He.
  apply list_elem_of_fmap in He as (y & -> & Hy).
  rewrite Forall_forall in Htags.
  assert (∀ k, tagged k y → dict_get "priority" (VInt dflt) y = VInt k)
    as Hget.
  { intros k Hk. unfold dict_get. by rewrite Hk. }
  destruct (Htags y Hy) as [Hk|[Hk|Hk]].
  - exists y, 1%Z. cbn [priority link normalize_record fst snd].
    rewrite (Hget _ Hk). auto 10.
  - exists y, 2%Z. cbn [priority link normalize_record fst snd].
    rewrite (Hget _ Hk). auto 10.
  - exists y, 3%Z. cbn [priority link normalize_record fst snd].
    rewrite (Hget _ Hk). auto 10.
Qed.

End Pipeline.

(** * Facts about the processor client *)

Section ClientFacts.
Import AirtableIntegration.

Context {Proc Json : Type}.
Variable requests_post : string → Payload → Proc → (Json + string) * Proc.

Local Abbreviation send_results := (send_results requests_post).
Local Abbreviation send_results_untyped := (send_results_untyped requests_post).
Local Abbreviation integrate_with_streamlit :=
  (integrate_with_streamlit requests_post).

(** What [send_results] makes of an item [x]: the batch priority, a
    query label and every other key as it was. *)
Local Abbreviation sent_as := (λ (priority : Z) (x y : item),
  y !! "priority" = Some (VInt priority)
  ∧ is_Some (y !! "search_query")
  ∧ ∀ k, k ≠ "priority" → k ≠ "search_query" → y !! k = x !! k).

Lemma with_context_sent_as search_query priority x :
  sent_as priority x (with_context search_query priority x).
Proof.
  unfold with_context. split; [apply lookup_insert_eq|]. split.
  - rewrite lookup_insert_ne by done. rewrite lookup_insert_eq. by eexists.
  - intros k Hp Hq. by rewrite !lookup_insert_ne.
Qed.

Lemma all_results_sent_as results search_queries priority :
  Forall2 (sent_as priority) (results ≫= snd)
    (all_results results search_queries priority).
Proof.
  unfold all_results.
  induction results as [|[website items] rest IH]; [constructor|].
  rewrite !bind_cons. apply Forall2_app; [|done]. cbn [snd].
  apply Forall2_fmap_r, Forall_Forall2_diag, Forall_forall.
  intros x _. apply with_context_sent_as.
Qed.

Lemma send_results_payload_aux processor_url results search_queries
    priority p :
  ∃ payload,
    posted (send_results processor_url results search_queries priority p)
    = [(processor_url, payload)]
    ∧ pl_priority payload = priority
    ∧ Forall2 (sent_as priority) (results ≫= snd) (pl_results payload).
Proof.
  unfold AirtableIntegration.send_results.
  destruct (requests_post _ _ p) as [response p'].
  eexists. split; [reflexivity|]. split; [reflexivity|].
  apply all_results_sent_as.
Qed.

(** X18: [send_results] posts once, also for an empty batch; the payload
    holds one entry per input item, in input order; each entry is the
    item with the batch priority in place of its own, a query label and
    every other key unchanged. *)
Theorem send_results_payload processor_url results search_queries priority p :
  ∃ payload,
    posted (send_results processor_url results search_queries priority p)
    = [(processor_url, payload)]
    ∧ pl_priority payload = priority
    ∧ Forall2 (sent_as priority) (results ≫= snd) (pl_results payload).
Proof. apply send_results_payload_aux. Qed.

(** On dicts, the list built from a session is the list built from
    arguments of the declared type. *)
Lemma all_results_untyped_typed results search_queries priority :
  all_results_untyped results (QDict <$> search_queries) priority
  = Returns (all_results results search_queries priority).
Proof.
  unfold all_results.
  induction results as [|[website items] rest IH]; [done|].
  cbn [all_results_untyped]. rewrite IH, lookup_fmap, bind_cons.
  by destruct (search_queries !! website).
Qed.

Lemma send_results_untyped_typed processor_url results search_queries
    priority p :
  send_results_untyped processor_url results (QDict <$> search_queries)
    priority p
  = Returns (send_results processor_url results search_queries priority p).
Proof.
  unfold AirtableIntegration.send_results_untyped,
         AirtableIntegration.send_results.
  rewrite all_results_untyped_typed.
  by destruct (requests_post _ _ p).
Qed.

(** Line 41 raises exactly when the session holds a [str] for a website
    of the results. *)
Lemma all_results_untyped_raises results search_queries priority :
  all_results_untyped results search_queries priority = AttributeError
  ↔ ∃ website items s,
      (website, items) ∈ results
      ∧ search_queries !! website = Some (QStr s).
Proof.
  induction results as [|[website items] rest IH]; cbn [all_results_untyped].
  { split; [done|]. intros (? & ? & ? & []%elem_of_nil & _). }
  destruct (search_queries !! website) as [[s|d]|] eqn:Hw;
    cbn [default from_option id].
  - split; [|done]. intros _. exists website, items, s. split; [left|done].
  - destruct (all_results_untyped rest search_queries priority).
    + split; [done|]. intros (w & its & s & Hin & Hs).
      apply elem_of_cons in Hin as [[= -> ->]|Hin]; [congruence|].
      discriminate
        (proj2 IH (ex_intro _ w (ex_intro _ its
                     (ex_intro _ s (conj Hin Hs))))).
    + split; [|done]. intros _.
      destruct (proj1 IH eq_refl) as (w & its & s & Hin & Hs).
      exists w, its, s. split; [by right|done].
  - destruct (all_results_untyped rest search_queries priority).
    + split; [done|]. intros (w & its & s & Hin & Hs).
      apply elem_of_cons in Hin as [[= -> ->]|Hin]; [congruence|].
      discriminate
        (proj2 IH (ex_intro _ w (ex_intro _ its
                     (ex_intro _ s (conj Hin Hs))))).
    + split; [|done]. intros _.
      destruct (proj1 IH eq_refl) as (w & its & s & Hin & Hs).
      exists w, its, s. split; [by right|done].
Qed.

Lemma all_results_untyped_sent_as results search_queries priority l :
  all_results_untyped results search_queries priority = Returns l →
  Forall2 (sent_as priority) (results ≫= snd) l.
Proof.
  revert l. induction results as [|[website items] rest IH]; intros l;
    cbn [all_results_untyped].
  { intros [= <-]. constructor. }
  destruct (default (QDict ∅) (search_queries !! website)); [done|].
  destruct (all_results_untyped rest search_queries priority) as [tl|];
    [|done].
  intros [= <-]. rewrite bind_cons. apply Forall2_app; [|by apply IH].
  cbn [snd]. apply Forall2_fmap_r, Forall_Forall2_diag, Forall_forall.
  intros x _. apply with_context_sent_as.
Qed.

(** X19: [integrate_with_streamlit] returns [None] without posting
    exactly when the session has no results.  With results it raises
    [AttributeError], before anything is posted, exactly when the session
    holds a [str] under [search_queries] for one of their websites, which
    is what [main.py] stores there for every website it searches; in
    every other case it posts the results once with priority 1, so that
    every item sent carries priority 1 whatever tier tagged it. *)
Theorem integrate_with_streamlit_outcome st_session_state processor_url p :
  (integrate_with_streamlit st_session_state processor_url p = Returns None
   ↔ ss_results st_session_state = None)
  ∧ (integrate_with_streamlit st_session_state processor_url p
     = AttributeError
     ↔ ∃ results website items s,
         ss_results st_session_state = Some results
         ∧ (website, items) ∈ results
         ∧ default ∅ (ss_search_queries st_session_state) !! website
           = Some (QStr s))
  ∧ (∀ results,
       ss_results st_session_state = Some results →
       results ≠ [] →
       (∀ website items, (website, items) ∈ results →
          ∃ s, default ∅ (ss_search_queries st_session_state) !! website
               = Some (QStr s)) →
       integrate_with_streamlit st_session_state processor_url p
       = AttributeError)
  ∧ ∀ sent,
      integrate_with_streamlit st_session_state processor_url p
      = Returns (Some sent) →
      ∃ results payload,
        ss_results st_session_state = Some results
        ∧ posted sent
          = [(default "http://localhost:8001/process" processor_url,
              payload)]
        ∧ pl_priority payload = 1%Z
        ∧ Forall2 (sent_as 1%Z) (results ≫= snd) (pl_results payload).
Proof.
  assert (integrate_with_streamlit st_session_state processor_url p
          = AttributeError
          ↔ ∃ results website items s,
              ss_results st_session_state = Some results
              ∧ (website, items) ∈ results
              ∧ default ∅ (ss_search_queries st_session_state) !! website
                = Some (QStr s)) as Hraise.
  { unfold AirtableIntegration.integrate_with_streamlit,
           AirtableIntegration.send_results_untyped.
    destruct (ss_results st_session_state) as [results|].
    2: { split; [done|]. by intros (? & ? & ? & ? & [=] & _). }
    set (sq := default ∅ (ss_search_queries st_session_state)).
    pose proof (all_results_untyped_raises results sq 1) as Hiff.
    destruct (all_results_untyped results sq 1) as [l|].
    - destruct (requests_post _ _ p) as [response p']. split; [done|].
      intros (? & w & its & label & [= <-] & Hin & Hs).
      discriminate
        (proj2 Hiff (ex_intro _ w (ex_intro _ its
                       (ex_intro _ label (conj Hin Hs))))).
    - split; [|done]. intros _.
      destruct (proj1 Hiff eq_refl) as (w & its & s & Hin & Hs).
      by exists results, w, its, s. }
  split; [|split; [exact Hraise|split]].
  - unfold AirtableIntegration.integrate_with_streamlit.
    destruct (ss_results st_session_state) as [results|]; [|done].
    split; [|done].
    by destruct (send_results_untyped _ results _ 1 p).
  - intros results Hres Hne Hstr. apply Hraise.
    destruct results as [|[website items] rest]; [done|].
    destruct (Hstr website items) as [s Hs]; [left|].
    exists ((website, items) :: rest), website, items, s.
    split; [done|]. split; [left|done].
  - intros sent.
    unfold AirtableIntegration.integrate_with_streamlit,
           AirtableIntegration.send_results_untyped.
    destruct (ss_results st_session_state) as [results|]; [|done].
    set (sq := default ∅ (ss_search_queries st_session_state)).
    pose proof (all_results_untyped_sent_as results sq 1) as Hsent.
    destruct (all_results_untyped results sq 1) as [l|]; [|done].
    destruct (requests_post _ _ p) as [response p'].
    intros [= <-]. exists results. eexists.
    split; [done|]. split; [reflexivity|]. split; [reflexivity|].
    by apply Hsent.
Qed.

End ClientFacts.

(** * Facts about the password gate *)

Section GateFacts.
Import Main.

(** X20: the rest of the script runs only in a session that is already
    authenticated; such a session stays authenticated and is shown no
    message. *)
Theorem check_password_proceeds_iff authenticated app_password password login :
  ((check_password authenticated app_password password login).2 = Proceed
   ↔ authenticated = Some true)
  ∧ check_password (Some true) app_password password login
    = (true, [], Proceed).
Proof.
  split; [|reflexivity]. unfold check_password.
  destruct authenticated as [[|]|]; simpl; repeat case_match; done.
Qed.

(** X21: a session is authenticated after [check_password] exactly when
    it was before, or "Login" was clicked with the configured password
    and that password is not empty; without a configured password nobody
    gets in. *)
Theorem authenticated_iff authenticated app_password password login :
  (check_password authenticated app_password password login).1.1 = true
  ↔ authenticated = Some true
    ∨ (login = true ∧ app_password = Some password ∧ password ≠ "").
Proof.
  unfold check_password.
  destruct (default false authenticated) eqn:Hauth; cbn [negb fst snd].
  { split; [intros _; left|done].
    destruct authenticated as [[|]|]; simpl in Hauth; congruence. }
  assert (authenticated ≠ Some true) as Hno.
  { intros ->. discriminate Hauth. }
  destruct app_password as [correct|]; cbn [default from_option id].
  - destruct (nonempty correct) eqn:Hne; cbn [negb].
    + apply nonempty_true in Hne. destruct login.
      * destruct (String.eqb_spec password correct) as [->|Hneq];
          cbn [fst snd].
        -- split; [intros _; by right|done].
        -- split; [done|]. intros [?|(_ & Heq & _)]; [done|].
           injection Heq as ->. done.
      * cbn [fst snd]. split; [done|]. intros [?|(? & _)]; done.
    + cbn [fst snd]. split; [done|]. intros [?|(_ & Heq & Hp)]; [done|].
      injection Heq as ->. apply nonempty_true in Hp. congruence.
  - change (nonempty "") with false. cbn [negb fst snd].
    split; [done|]. intros [?|(_ & ? & _)]; done.
Qed.

(** X22: a run that ends in a rerun after "Login" leaves the session
    authenticated, so that the rerun proceeds whatever is then in the
    password field; a click on "Logout" ends the session, and the run
    after it does not proceed. *)
Theorem login_logout_round_trip authenticated app_password password login
    password' login' :
  ((check_password authenticated app_password password login).2 = Rerun →
   check_password
     (Some (check_password authenticated app_password password login).1.1)
     app_password password' login'
   = (true, [], Proceed))
  ∧ logout_button true true = (false, Rerun)
  ∧ (check_password (Some (logout_button true true).1)
       app_password password' login').2 ≠ Proceed.
Proof.
  split; [|split; [reflexivity|]].
  - unfold check_password.
    destruct (default false authenticated); cbn [negb]; [done|].
    destruct (negb (nonempty (default "" app_password))); [done|].
    destruct login; [|done].
    by destruct (String.eqb password (default "" app_password)).
  - unfold check_password, logout_button. cbn [fst default negb from_option id].
    destruct (negb (nonempty (default "" app_password))); [done|].
    destruct login'; [|done].
    by destruct (String.eqb password' (default "" app_password)).
Qed.

End GateFacts.

(** * The further facts on concrete runs *)

Section FurtherRuns.
Import Main DirectAirtableIntegration Scenarios.

Lemma run_limit_in_tier1 :
  search_website scripted (words "report") (words "study") no_terms
    "example.org" false limit_in_tier1 = Some limit_in_tier1_outcome.
Proof. reflexivity. Qed.

Lemma run_one_key_spent :
  search_website
    (google_search one_key_spent "engine" "key-1" "key-2" "key-3")
    (words "report") no_terms no_terms "example.org" false
    {| net_state := 0; net_sent := [] |}
  = Some one_key_spent_outcome.
Proof. reflexivity. Qed.

(** X1, on the run with a rate limit in tier 1. *)
Lemma tier_requests_in_order_witness :
  search_website scripted (words "report") (words "study") no_terms
    "example.org" false limit_in_tier1 = Some limit_in_tier1_outcome
  ∧ ex_page <$> tier_log 1 (log limit_in_tier1_outcome)
    = seq 0 (length (tier_log 1 (log limit_in_tier1_outcome))).
Proof.
  split; [exact run_limit_in_tier1|].
  exact (proj2 (proj1 (proj2
           (tier_requests_in_order scripted
              (words "report") (words "study") no_terms "example.org"
              false limit_in_tier1 limit_in_tier1_outcome
              run_limit_in_tier1)))).
Defined.

(** X2, on the same run: the call that came back [None] is the last of
    tier 1. *)
Lemma rate_limit_ends_tier_witness :
  search_website scripted (words "report") (words "study") no_terms
    "example.org" false limit_in_tier1 = Some limit_in_tier1_outcome
  ∧ none_last (tier_log 1 (log limit_in_tier1_outcome)).
Proof.
  split; [exact run_limit_in_tier1|].
  exact (rate_limit_ends_tier scripted
           (words "report") (words "study") no_terms "example.org"
           false limit_in_tier1 limit_in_tier1_outcome 1
           run_limit_in_tier1).
Defined.

(** X3, on the same run. *)
Lemma limit_flag_iff_witness :
  search_website scripted (words "report") (words "study") no_terms
    "example.org" false limit_in_tier1 = Some limit_in_tier1_outcome
  ∧ (limitExceeded limit_in_tier1_outcome = true
     ↔ false = true
       ∨ ∃ e, e ∈ log limit_in_tier1_outcome ∧ ex_reply e = None).
Proof.
  split; [exact run_limit_in_tier1|].
  exact (limit_flag_iff scripted
           (words "report") (words "study") no_terms "example.org"
           false limit_in_tier1 limit_in_tier1_outcome
           run_limit_in_tier1).
Defined.

(** X4, for the item "d" that tier 2 added. *)
Lemma results_come_from_replies_witness :
  search_website scripted (words "report") (words "study") no_terms
    "example.org" false overlapping_tiers = Some overlapping_outcome
  ∧ <["priority" := VInt 2]> (hit "d") ∈ results overlapping_outcome
  ∧ ∃ e x,
      e ∈ log overlapping_outcome ∧ x ∈ reply_items e
      ∧ <["priority" := VInt 2]> (hit "d")
        = <["priority" := VInt (Z.of_nat (ex_tier e))]> x
      ∧ (ex_tier e = 1 ∨ ex_tier e = 2 ∨ ex_tier e = 3).
Proof.
  assert (<["priority" := VInt 2]> (hit "d") ∈ results overlapping_outcome)
    as Hin.
  { apply elem_of_app. right.
    change (tag 2 (hits 3 2))
      with [<["priority" := VInt 2]> (hit "d");
            <["priority" := VInt 2]> (hit "e")].
    apply list_elem_of_here. }
  split; [exact run_overlapping_tiers|]. split; [exact Hin|].
  exact (results_come_from_replies scripted
           (words "report") (words "study") no_terms "example.org"
           false overlapping_tiers overlapping_outcome _
           run_overlapping_tiers Hin).
Defined.

(** X5, on the run with two tiers. *)
Lemma results_ordered_by_tier_witness :
  search_website scripted (words "report") (words "study") no_terms
    "example.org" false overlapping_tiers = Some overlapping_outcome
  ∧ ∃ l1 l2 l3,
      results overlapping_outcome = l1 ++ l2 ++ l3
      ∧ Forall (tagged 1) l1 ∧ Forall (tagged 2) l2 ∧ Forall (tagged 3) l3.
Proof.
  split; [exact run_overlapping_tiers|].
  exact (results_ordered_by_tier scripted
           (words "report") (words "study") no_terms "example.org"
           false overlapping_tiers overlapping_outcome
           run_overlapping_tiers).
Defined.

(** X6, on the run with two tiers: tier 2 was asked, tier 3 was not. *)
Lemma later_tier_queried_iff_witness :
  search_website scripted (words "report") (words "study") no_terms
    "example.org" false overlapping_tiers = Some overlapping_outcome
  ∧ (tier_log 2 (log overlapping_outcome) ≠ []
     ↔ active (words "study") = true
       ∧ length (below_tier 2 (results overlapping_outcome)) < 40)
  ∧ (tier_log 3 (log overlapping_outcome) ≠ []
     ↔ active no_terms = true
       ∧ length (below_tier 3 (results overlapping_outcome)) < 40).
Proof.
  split; [exact run_overlapping_tiers|].
  exact (later_tier_queried_iff scripted
           (words "report") (words "study") no_terms "example.org"
           false overlapping_tiers overlapping_outcome
           run_overlapping_tiers).
Defined.

(** X7, on the pages of 10, 10 and 3 raw items. *)
Lemma tier1_stops_at_cap_witness :
  search_website scripted (words "report") no_terms no_terms
    "example.org" false short_third_page = Some short_third_page_outcome
  ∧ length (take (length (tier_log 1 (log short_third_page_outcome)) - 1)
              (tier_log 1 (log short_third_page_outcome))
            ≫= reply_items) < 40.
Proof.
  split; [exact run_short_third_page|].
  exact (tier1_stops_at_cap scripted
           (words "report") no_terms no_terms "example.org"
           false short_third_page short_third_page_outcome
           run_short_third_page).
Defined.

(** X8, on the run of one website. *)
Lemma searched_websites_witness :
  search_button scripted (words "report") (words "study") no_terms
    ["example.org"] more_than_forty = Some more_than_forty_session
  ∧ (is_Some (s_results more_than_forty_session !! "example.org")
     ↔ "example.org" ∈ ["example.org"] ∧ "example.org" ≠ "").
Proof.
  split; [exact run_more_than_forty|].
  exact (searched_websites scripted
           (words "report") (words "study") no_terms ["example.org"]
           more_than_forty more_than_forty_session "example.org"
           run_more_than_forty).
Defined.

(** X12, on an API whose first key is over its limit: two requests for
    the one page asked for. *)
Lemma website_http_requests_witness :
  search_website
    (google_search one_key_spent "engine" "key-1" "key-2" "key-3")
    (words "report") no_terms no_terms "example.org" false
    {| net_state := 0; net_sent := [] |}
  = Some one_key_spent_outcome
  ∧ ∃ sent,
      net_sent (world one_key_spent_outcome) = [] ++ sent
      ∧ length (log one_key_spent_outcome) ≤ length sent
      ∧ length sent ≤ 3 * length (log one_key_spent_outcome)
      ∧ length sent ≤ 66
      ∧ Forall (λ x, website_request "engine" "key-1" "key-2" "key-3"
                       "example.org" x.1) sent.
Proof.
  split; [exact run_one_key_spent|].
  exact (website_http_requests one_key_spent "engine" "key-1" "key-2" "key-3"
           (words "report") no_terms no_terms "example.org" false
           {| net_state := 0; net_sent := [] |} one_key_spent_outcome
           run_one_key_spent).
Defined.

(** X17, on the list of the run with two tiers, saved to an empty
    table. *)
Lemma accumulated_priority_written_witness :
  search_website scripted (words "report") (words "study") no_terms
    "example.org" false overlapping_tiers = Some overlapping_outcome
  ∧ Forall (λ record,
              ∃ y k, y ∈ results overlapping_outcome ∧ tagged k y
                     ∧ (k = 1 ∨ k = 2 ∨ k = 3)%Z
                     ∧ priority record = VInt k
                     ∧ link record = dict_get "link" (VStr "") y)
      (creates (events (save_results mem_all mem_create netloc_unknown
                          "2024-05-01"
                          [("example.org", results overlapping_outcome)]
                          None 1 true (Some always_returns) [] ()))).
Proof.
  split; [exact run_overlapping_tiers|].
  exact (accumulated_priority_written scripted mem_all mem_create
           netloc_unknown "2024-05-01"
           (words "report") (words "study") no_terms "example.org"
           false overlapping_tiers overlapping_outcome None 1 true
           (Some always_returns) [] () run_overlapping_tiers).
Defined.

Lemma always_returns_normally : returns_normally (Some always_returns).
Proof. intros cb n total n_created n_errors o [= <-]. reflexivity. Qed.

(** X13, on the run whose callback raised once after the write: the call
    returned, and the one record was handed over. *)
Lemma writes_follow_input_witness :
  escaped raised_after_write = false
  ∧ creates (events raised_after_write)
    = (λ e : Entry, normalize_record netloc_unknown "2024-05-01"
                      e.1.1 e.1.2 e.2)
        <$> linked (all_items single_batch ∅ 1).
Proof.
  split; [reflexivity|].
  exact (proj1 (proj2 (writes_follow_input mem_all mem_create netloc_unknown
                         "2024-05-01" single_batch None 1 false
                         (Some raises_once) [] 0)) eq_refl).
Defined.

(** X14, on the run whose callback raised once after the duplicate was
    found. *)
Lemma lookups_follow_input_witness :
  escaped raised_after_duplicate = false
  ∧ lookups (events raised_after_duplicate)
    = link_of <$> linked (all_items single_batch ∅ 1).
Proof.
  split; [reflexivity|].
  exact (lookups_follow_input mem_all mem_create netloc_unknown
           "2024-05-01" single_batch None 1 (Some raises_once)
           [VStr "ok"] 0 eq_refl).
Defined.

(** X15, on the batch of three items. *)
Lemma stats_account_for_events_witness :
  created (stats mixed_run) = length (sleeps (events mixed_run))
  ∧ created (stats mixed_run) + length (failed_writes (events mixed_run))
    = length (creates (events mixed_run))
  ∧ errors (stats mixed_run)
    = length (unlinked (all_items mixed_batch ∅ 1))
      + length (failed_writes (events mixed_run))
  ∧ duplicates (stats mixed_run) + length (creates (events mixed_run))
    = length (linked (all_items mixed_batch ∅ 1)).
Proof.
  exact (stats_account_for_events mem_all mem_create netloc_unknown
           "2024-05-01" mixed_batch None 1 false (Some always_returns)
           [] () always_returns_normally).
Defined.

(** X16, on the batch of three items. *)
Lemma progress_reports_sound_witness :
  Forall (sound_progress (length (all_items mixed_batch ∅ 1)))
    (events mixed_run)
  ∧ StronglySorted lt (callbacks (events mixed_run)).
Proof.
  exact (progress_reports_sound mem_all mem_create netloc_unknown
           "2024-05-01" mixed_batch None 1 false (Some always_returns)
           [] () always_returns_normally).
Defined.

(** X19, on a session as [main.py] leaves it, and on one without
    [search_queries]: its item, tagged by tier 2, is sent with
    priority 1. *)
Lemma integrate_with_streamlit_outcome_witness :
  AirtableIntegration.integrate_with_streamlit counting_post
    labelled_session None 0
  = AirtableIntegration.AttributeError
  ∧ ∃ sent,
      AirtableIntegration.integrate_with_streamlit counting_post
        tier2_session None 0
      = AirtableIntegration.Returns (Some sent)
      ∧ ∃ results payload,
          AirtableIntegration.ss_results tier2_session = Some results
          ∧ AirtableIntegration.posted sent
            = [("http://localhost:8001/process", payload)]
          ∧ AirtableIntegration.pl_priority payload = 1%Z
          ∧ Forall2 (λ x y : item,
                       y !! "priority" = Some (VInt 1)
                       ∧ is_Some (y !! "search_query")
                       ∧ ∀ k, k ≠ "priority" → k ≠ "search_query" →
                              y !! k = x !! k)
              (results ≫= snd) (AirtableIntegration.pl_results payload).
Proof.
  split.
  - apply (proj1 (proj2 (proj2 (integrate_with_streamlit_outcome
                                  counting_post labelled_session None 0)))
             [("example.org", [<["priority" := VInt 2]> (hit "d")])]
             eq_refl); [discriminate|].
    intros website items [= -> ->]%list_elem_of_singleton.
    exists "report; study". apply lookup_singleton_eq.
  - eexists. split; [reflexivity|].
    exact (proj2 (proj2 (proj2 (integrate_with_streamlit_outcome
                                  counting_post tier2_session None 0)))
             _ eq_refl).
Defined.

(** X23, on the service that always has three linked hits. *)
Lemma search_button_completes_witness :
  is_Some (search_button steady (words "report") (words "study") no_terms
             ["example.org"; ""; "example.net"] 0).
Proof.
  apply (search_button_completes steady).
  intros n site t w r w' [= <- _].
  change (Forall has_link (hits (n * 3) 3)).
  apply Forall_fmap, Forall_forall. intros i _.
  unfold compose, has_link, hit. rewrite lookup_singleton_eq. by eexists.
Defined.

(** X24, on a batch of two items with a link. *)
Lemma callbacks_once_per_linked_item_witness :
  callbacks (events (save_results mem_all mem_create netloc_unknown
                       "2024-05-01" linked_batch None 1 true
                       (Some always_returns) [] ()))
  = [1; 2].
Proof.
  apply (callbacks_once_per_linked_item mem_all mem_create netloc_unknown
           "2024-05-01" linked_batch None 1 true always_returns [] ()
           always_returns_normally).
  change (Forall (λ e, truthy (link_of e) = true)
            [(hit "ok", "search on example.org", VInt 1);
             (hit "fine", "search on example.org", VInt 1)]).
  repeat constructor.
Defined.

(** X25, on the batch of three items. *)
Lemma processed_counts_when_callback_returns_witness :
  escaped mixed_run = false
  ∧ processed (stats mixed_run)
    = sum_list ((λ p : string * list item, length p.2) <$> mixed_batch).
Proof.
  exact (processed_counts_when_callback_returns mem_all mem_create
           netloc_unknown "2024-05-01" mixed_batch None 1 false
           (Some always_returns) [] () always_returns_normally).
Defined.

(** X26, on the batch of three items: the item without a link is
    skipped, the refused one ends the batch, the third is never
    written. *)
Lemma raising_callback_ends_batch_witness :
  escaped (save_results mem_all mem_create netloc_unknown "2024-05-01"
             mixed_batch None 1 false (Some always_raises) [] ())
  = true
  ∧ link <$> creates
      (events (save_results mem_all mem_create netloc_unknown "2024-05-01"
                 mixed_batch None 1 false (Some always_raises) [] ()))
    = [VStr "bad"].
Proof.
  destruct (raising_callback_ends_batch mem_all mem_create netloc_unknown
              "2024-05-01" mixed_batch None 1 false always_raises [] ()
              (λ _ _ _ _ _, eq_refl)) as [Hesc Hcr].
  split; [exact (eq_trans Hesc eq_refl)|].
  exact (eq_trans (f_equal (fmap link) Hcr) eq_refl).
Defined.

(** X22, for the password "s3cret" typed into the field. *)
Lemma login_logout_round_trip_witness :
  (check_password None (Some "s3cret") "s3cret" true).2 = Rerun
  ∧ check_password
      (Some (check_password None (Some "s3cret") "s3cret" true).1.1)
      (Some "s3cret") "" false
    = (true, [], Proceed).
Proof.
  split; [reflexivity|].
  exact (proj1 (login_logout_round_trip None (Some "s3cret") "s3cret" true
                  "" false) eq_refl).
Defined.

End FurtherRuns.
